(** * sencillo-go: the NATS micro request dispatcher

    A shallow embedding of [transports/nats/micro.go] (the dispatcher that
    carries tracing), of its sibling without tracing, and of
    [errors/errors.go], together with the parts of the Go standard library
    and of nats.go that these files call.

    Go strings are byte strings: they are modelled by [string] (a list of
    8-bit [ascii] characters).  Go [int] values are modelled by [Z]; the
    dispatcher only formats them, it does no arithmetic on them except for
    the 64-bit duration, whose saturation is written out.  *)

From Stdlib Require Import ZArith Ascii String DecimalString.
From stdpp Require Import gmap strings list fin_maps.

Local Open Scope Z_scope.

(* ===================================================================== *)
(** * The Go library functions used by the dispatcher                     *)
(* ===================================================================== *)

(** ** package strings *)
Module strings.

(** [strings.Join(elems, sep)] *)
Fixpoint Join (elems : list string) (sep : string) : string :=
  match elems with
  | [] => ""
  | [e] => e
  | e :: rest => e +:+ sep +:+ Join rest sep
  end.

(** [strings.Cut(s, sep)] for a one-byte separator: the text before the
    first [sep], the text after it, and whether [sep] was found.  When it
    is not found the result is [(s, "", false)]. *)
Fixpoint Cut (s : string) (sep : ascii) : string * string * bool :=
  match s with
  | EmptyString => ("", "", false)
  | String c rest =>
      if Ascii.eqb c sep then ("", rest, true)
      else let '(before, after, found) := Cut rest sep in
           (String c before, after, found)
  end.

(** [strings.Contains(s, sep)] for a one-byte [sep]. *)
Fixpoint Contains (s : string) (sep : ascii) : bool :=
  match s with
  | EmptyString => false
  | String c rest => Ascii.eqb c sep || Contains rest sep
  end.

End strings.

(** ** package strconv / fmt *)
Module fmt.

(** [fmt.Sprintf("%d", n)]: the decimal rendering, with a leading [-] for
    a negative number. *)
Definition Sprintf_d (n : Z) : string :=
  NilZero.string_of_int (Z.to_int n).

Definition hexdigit (n : N) : ascii :=
  ascii_of_N (if (n <? 10)%N then 48 + n else 87 + n)%N.

(** One character of [strconv.Quote], in the ASCII range:
    the quote and the backslash are escaped, printable characters are
    copied, the control characters with a short escape use it, and the
    others are written [\xNN]. *)
Definition appendEscapedRune (c : ascii) : string :=
  let n := N_of_ascii c in
  if (n =? 34)%N then "\" +:+ String c ""
  else if (n =? 92)%N then "\\"
  else if ((32 <=? n) && (n <? 127))%N then String c ""
  else if (n =? 7)%N then "\a"
  else if (n =? 8)%N then "\b"
  else if (n =? 12)%N then "\f"
  else if (n =? 10)%N then "\n"
  else if (n =? 13)%N then "\r"
  else if (n =? 9)%N then "\t"
  else if (n =? 11)%N then "\v"
  else if (n <? 128)%N then
    "\x" +:+ String (hexdigit (n / 16)) (String (hexdigit (n mod 16)) "")
  else String c "".

Fixpoint quoteBody (s : string) : string :=
  match s with
  | EmptyString => ""
  | String c rest => appendEscapedRune c +:+ quoteBody rest
  end.

(** [fmt.Sprintf("%q", s)], that is [strconv.Quote(s)].  The model is exact
    on ASCII text, which is all the dispatcher's own messages use.  Bytes
    from 0x80 up are copied through, as Go does for the printable runes of
    well-formed UTF-8; Go's escapes for ill-formed UTF-8 and for
    non-printable runes beyond ASCII depend on the Unicode tables and are
    outside the model. *)
Definition Sprintf_q (s : string) : string :=
  String (ascii_of_N 34) (quoteBody s) +:+ String (ascii_of_N 34) "".

End fmt.

(** ** package net/http *)
Module http.

(** [http.StatusText(code)]; the empty string for an unknown code. *)
Definition StatusText (code : Z) : string :=
  match code with
  | 100 => "Continue"
  | 101 => "Switching Protocols"
  | 102 => "Processing"
  | 103 => "Early Hints"
  | 200 => "OK"
  | 201 => "Created"
  | 202 => "Accepted"
  | 203 => "Non-Authoritative Information"
  | 204 => "No Content"
  | 205 => "Reset Content"
  | 206 => "Partial Content"
  | 207 => "Multi-Status"
  | 208 => "Already Reported"
  | 226 => "IM Used"
  | 300 => "Multiple Choices"
  | 301 => "Moved Permanently"
  | 302 => "Found"
  | 303 => "See Other"
  | 304 => "Not Modified"
  | 305 => "Use Proxy"
  | 307 => "Temporary Redirect"
  | 308 => "Permanent Redirect"
  | 400 => "Bad Request"
  | 401 => "Unauthorized"
  | 402 => "Payment Required"
  | 403 => "Forbidden"
  | 404 => "Not Found"
  | 405 => "Method Not Allowed"
  | 406 => "Not Acceptable"
  | 407 => "Proxy Authentication Required"
  | 408 => "Request Timeout"
  | 409 => "Conflict"
  | 410 => "Gone"
  | 411 => "Length Required"
  | 412 => "Precondition Failed"
  | 413 => "Request Entity Too Large"
  | 414 => "Request URI Too Long"
  | 415 => "Unsupported Media Type"
  | 416 => "Requested Range Not Satisfiable"
  | 417 => "Expectation Failed"
  | 418 => "I'm a teapot"
  | 421 => "Misdirected Request"
  | 422 => "Unprocessable Entity"
  | 423 => "Locked"
  | 424 => "Failed Dependency"
  | 425 => "Too Early"
  | 426 => "Upgrade Required"
  | 428 => "Precondition Required"
  | 429 => "Too Many Requests"
  | 431 => "Request Header Fields Too Large"
  | 451 => "Unavailable For Legal Reasons"
  | 500 => "Internal Server Error"
  | 501 => "Not Implemented"
  | 502 => "Bad Gateway"
  | 503 => "Service Unavailable"
  | 504 => "Gateway Timeout"
  | 505 => "HTTP Version Not Supported"
  | 506 => "Variant Also Negotiates"
  | 507 => "Insufficient Storage"
  | 508 => "Loop Detected"
  | 510 => "Not Extended"
  | 511 => "Network Authentication Required"
  | _ => ""
  end.

End http.

(* ===================================================================== *)
(** * Go error values                                                     *)
(* ===================================================================== *)

(** The struct of [errors/errors.go], over a type [E] of causes. *)
Record ClientErrorOf (E : Type) : Type := mkClientError {
  Status : Z;                (* the status code to be returned *)
  Details : list string;     (* the client-facing details *)
  DetailedErrors : list E    (* the causes, to be logged *)
}.
Arguments mkClientError {E} _ _ _.
Arguments Status {E} _.
Arguments Details {E} _.
Arguments DetailedErrors {E} _.

(** A non-nil value of Go's [error] interface, by its dynamic type:
    - [errorString]: the values of [fmt.Errorf] and [errors.New], and any
      other type whose only relevant method is [Error()];
    - [EscapeError]: [url.EscapeError];
    - [clientError]: the struct [sderrors.ClientError];
    - [customClientError]: a value of any other type that has the four
      methods [Error], [Code], [Body] and [LoggedError], given by what the
      four methods return. *)
#[warnings="-register-all"]
Inductive error : Type :=
  | errorString (msg : string)
  | EscapeError (s : string)
  | clientError (c : ClientErrorOf error)
  | customClientError (msg : string) (code : Z) (body : string)
                      (logged : list error).

(** ** package net/url *)
Module url.

Definition ishex (c : ascii) : bool :=
  let n := N_of_ascii c in
  ((48 <=? n) && (n <=? 57) || (97 <=? n) && (n <=? 102)
   || (65 <=? n) && (n <=? 70))%N.

Definition unhex (c : ascii) : N :=
  let n := N_of_ascii c in
  (if (48 <=? n) && (n <=? 57) then n - 48
   else if (97 <=? n) && (n <=? 102) then n - 97 + 10
   else if (65 <=? n) && (n <=? 70) then n - 65 + 10
   else 0)%N.

(** The first [n] bytes of [s]. *)
Fixpoint prefix (n : nat) (s : string) : string :=
  match n, s with
  | S n', String c rest => String c (prefix n' rest)
  | _, _ => ""
  end.

(** First loop of [unescape]: every [%] must be followed by two hex
    digits; the first one that is not gives [EscapeError] of the (at most)
    three bytes from the [%] on. *)
Fixpoint checkEscapes (s : string) : option error :=
  match s with
  | EmptyString => None
  | String c rest =>
      if Ascii.eqb c "%" then
        match rest with
        | String h1 (String h2 rest') =>
            if ishex h1 && ishex h2 then checkEscapes rest'
            else Some (EscapeError (prefix 3 s))
        | _ => Some (EscapeError (prefix 3 s))
        end
      else checkEscapes rest
  end.

(** Second loop of [unescape], in the query-component mode: [%XX] becomes
    the byte [XX], [+] becomes a space.  (It runs only on a text that the
    first loop accepted, where two bytes follow every [%].) *)
Fixpoint decode (s : string) : string :=
  match s with
  | EmptyString => ""
  | String c rest =>
      if Ascii.eqb c "%" then
        match rest with
        | String h1 (String h2 rest') =>
            String (ascii_of_N (unhex h1 * 16 + unhex h2)) (decode rest')
        | _ => ""
        end
      else if Ascii.eqb c "+" then String " " (decode rest)
      else String c (decode rest)
  end.

(** [url.QueryUnescape(s)] *)
Definition QueryUnescape (s : string) : string + error :=
  match checkEscapes s with
  | Some e => inr e
  | None => inl (decode s)
  end.

(** [url.Values] *)
Abbreviation Values := (gmap string (list string)).

(** The successive values of [key] in the loop of [parseQuery]:
    [key, query, _ = strings.Cut(query, "&")] until [query] is empty. *)
Fixpoint segments (query : string) : list string :=
  match query with
  | EmptyString => []
  | String c rest =>
      if Ascii.eqb c "&" then "" :: segments rest
      else match segments rest with
           | [] => [String c ""]
           | seg :: more => String c seg :: more
           end
  end.

(** One turn of the loop of [parseQuery], after the cut at [&]. *)
Definition parseQuery_step (acc : Values * option error) (key : string)
  : Values * option error :=
  let '(m, err) := acc in
  if strings.Contains key ";" then
    (m, Some (errorString "invalid semicolon separator in query"))
  else if String.eqb key "" then (m, err)
  else
    let '(key, value, _) := strings.Cut key "=" in
    match QueryUnescape key with
    | inr err1 => (m, match err with None => Some err1 | _ => err end)
    | inl key =>
        match QueryUnescape value with
        | inr err1 => (m, match err with None => Some err1 | _ => err end)
        | inl value => (<[key := default [] (m !! key) ++ [value]]> m, err)
        end
    end.

(** [url.ParseQuery(query)]: the map of the pairs that parsed, and the
    first error met, if any. *)
Definition ParseQuery (query : string) : Values * option error :=
  foldl parseQuery_step (∅, None) (segments query).

End url.

(* ===================================================================== *)
(** * errors/errors.go                                                    *)
(* ===================================================================== *)

(** [Error()] of an error value, by dynamic type.  For the struct of
    errors.go it is [strings.Join(c.Details, ", ")]. *)
Definition Error (e : error) : string :=
  match e with
  | errorString msg => msg
  | EscapeError s => "invalid URL escape " +:+ fmt.Sprintf_q s
  | clientError c => strings.Join (Details c) ", "
  | customClientError msg _ _ _ => msg
  end.

Module sderrors.

Abbreviation ClientError := (ClientErrorOf error).

(** A [ClientErrorOpt] post-processes the value through a pointer to it. *)
Definition ClientErrorOpt : Type := ClientError → ClientError.

(** The double quote character, as a text. *)
Definition dquote : string := String (ascii_of_N 34) "".

(** [Body()]: the details joined by a comma, between the fixed opening
    and closing of the envelope. *)
Definition Body (c : ClientError) : string :=
  "{" +:+ dquote +:+ "errors" +:+ dquote +:+ ": ["
      +:+ strings.Join (Details c) "," +:+ "]}".

Definition Code (c : ClientError) : Z := Status c.

Definition LoggedError (c : ClientError) : list error := DetailedErrors c.

(** Each cause's message is stored quoted by [%q]; the options are then
    applied in order. *)
Definition MultipleClientErrors (errs : list error) (code : Z)
    (opts : list ClientErrorOpt) : ClientError :=
  let errors := (λ v, fmt.Sprintf_q (Error v)) <$> errs in
  let ce := {| Status := code; Details := errors; DetailedErrors := errs |} in
  foldl (λ ce v, v ce) ce opts.

Definition NewClientError (err : error) (code : Z)
    (opts : list ClientErrorOpt) : ClientError :=
  MultipleClientErrors [err] code opts.

End sderrors.

(* ===================================================================== *)
(** * nats.go: headers, and what a request handler can be seen to do      *)
(* ===================================================================== *)

(** [nats.Header] and [micro.Headers]: [map[string][]string]. *)
Abbreviation Headers := (gmap string (list string)).

Module Header.

(** [Get]: the first value under [key], case-sensitive, the empty string
    when there is none.  (In Go a key bound to an empty, non-nil slice
    makes [v[0]] panic; neither the NATS decoder nor [url.ParseQuery]
    binds a key to an empty slice, and the model answers the empty
    string there.) *)
Definition Get (h : Headers) (key : string) : string :=
  match h !! key with
  | Some (v :: _) => v
  | _ => ""
  end.

(** [Values]: [h[key]]. *)
Definition Values (h : Headers) (key : string) : list string :=
  default [] (h !! key).

End Header.

(** [*slog.Logger], by the attributes that [With] has attached. *)
Record Logger : Type := mkLogger { attrs : list (string * string) }.

Definition With (l : Logger) (kvs : list (string * string)) : Logger :=
  {| attrs := attrs l ++ kvs |}.

Inductive Level : Type := LevelInfo | LevelError.

(** The opaque handle of the shared connection [*nats.Conn]. *)
Inductive Conn : Type := connHandle (id : positive).

(** The span context that a [context.Context] carries, if any;
    [context.Background()] carries none. *)
Record SpanContext : Type := mkSpanContext { TraceID : string; SpanID : string }.
Definition Context : Type := option SpanContext.

(** [codes.Ok] and [codes.Error] *)
Inductive SpanCode : Type := codes_Ok | codes_Error.

(** Calls on the span and the tracer. *)
Inductive TraceOp : Type :=
  | SpanStart (parent : Context) (name : string) (span : SpanContext)
  | SpanSetAttributes (key value : string)
  | SpanSetStatus (code : SpanCode) (description : string)
  | SpanRecordError (err : error)
  | SpanEnd.

(** The immutable part of a [micro.Request]. *)
Record Request : Type := mkRequest { Subject : string; Data : string }.

(** What an application handler does with the request, the logger and the
    span it is given. *)
Inductive Action : Type :=
  | ActLog (level : Level) (fields : list (string * string)) (msg : string)
  | ActRespond (data : string)
  | ActError (code description data : string)
  | ActSpan (op : TraceOp).

(** The calls the dispatcher makes, in order:
    - [LogRecord]: [logger.Info(msg)] or [logger.Error(msg)] on a logger
      with the given attributes;
    - [RequestError]: [r.Error(code, description, data)];
    - [Trace]: a call on the tracer or the span;
    - [Invoke]: the call of the application handler, with the headers and
      the logger it receives, followed by the handler's own [HandlerAction]s. *)
Inductive Event : Type :=
  | LogRecord (level : Level) (fields : list (string * string)) (msg : string)
  | RequestError (code description data : string)
  | Trace (op : TraceOp)
  | Invoke (headers : Headers) (logger : Logger)
  | HandlerAction (a : Action).

(** What a call of the application handler leaves behind: the header map
    (which it may have written to), its actions, and the error it returns
    ([None] for [nil]). *)
Record HandlerResult : Type := mkHandlerResult {
  res_headers : Headers;
  res_actions : list Action;
  res_err : option error
}.

(** ** The dispatcher's state: the request's live header map and the calls
    made so far. *)
Record State : Type := mkState { st_headers : Headers; st_trace : list Event }.

Definition M (A : Type) : Type := State → A * State.

#[global] Instance M_ret : MRet M := λ A a s, (a, s).
#[global] Instance M_bind : MBind M :=
  λ A B f m s, let '(a, s') := m s in f a s'.

Definition getHeaders : M Headers := λ s, (st_headers s, s).

Definition putHeaders (h : Headers) : M unit :=
  λ s, (tt, {| st_headers := h; st_trace := st_trace s |}).

Definition emit (e : Event) : M unit :=
  λ s, (tt, {| st_headers := st_headers s; st_trace := st_trace s ++ [e] |}).

(** [defer d] before [body]: [d] runs when [body] is over. *)
Definition defer {A} (d : M unit) (body : M A) : M A :=
  a ← body; _ ← d; mret a.

(** Runs a dispatcher on a request with headers [h]. *)
Definition run {A} (m : M A) (h : Headers) : A * State :=
  m {| st_headers := h; st_trace := [] |}.

Fixpoint forEach {A} (l : list A) (f : A → M unit) : M unit :=
  match l with
  | [] => mret tt
  | v :: rest => f v;; forEach rest f
  end.

Definition logError (l : Logger) (msg : string) : M unit :=
  emit (LogRecord LevelError (attrs l) msg).

Definition logInfo (l : Logger) (msg : string) : M unit :=
  emit (LogRecord LevelInfo (attrs l) msg).

(** ** package time: the monotonic clock *)
Module time.

Definition wrap64 (z : Z) : Z := (z + 2 ^ 63) mod 2 ^ 64 - 2 ^ 63.

Definition maxDuration : Z := 2 ^ 63 - 1.
Definition minDuration : Z := - 2 ^ 63.

(** [subMono(t, u)]: the 64-bit difference, saturated. *)
Definition subMono (t u : Z) : Z :=
  let d := wrap64 (t - u) in
  if (d <? 0) && (u <? t) then maxDuration
  else if (0 <? d) && (t <? u) then minDuration
  else d.

(** [time.Since(start)], read when the monotonic clock shows [now]. *)
Definition Since (now start : Z) : Z := subMono now start.

(** [Duration.Milliseconds()]: nanoseconds over 1e6, truncated. *)
Definition Milliseconds (d : Z) : Z := d ÷ 1000000.

End time.

(** The two readings of the monotonic clock (in nanoseconds) that a dispatch
    makes: [time.Now()] on entry, and the reading inside [time.Since] in the
    deferred function. *)
Record Clock : Type := mkClock { clock_start : Z; clock_end : Z }.

(* ===================================================================== *)
(** * transports/nats/micro.go: what the two dispatchers share            *)
(* ===================================================================== *)

(** The interface [ClientError], as the results of its four methods. *)
Record ClientErrorMethods : Type := mkMethods {
  m_Error : string;
  m_Code : Z;
  m_Body : string;
  m_LoggedError : list error
}.

(** The type assertion [err.(ClientError)]. *)
Definition asClientError (err : error) : option ClientErrorMethods :=
  match err with
  | clientError c =>
      Some {| m_Error := Error err; m_Code := sderrors.Code c;
              m_Body := sderrors.Body c;
              m_LoggedError := sderrors.LoggedError c |}
  | customClientError msg code body logged =>
      Some {| m_Error := msg; m_Code := code; m_Body := body;
              m_LoggedError := logged |}
  | errorString _ | EscapeError _ => None
  end.

(** [type microHeaderCarrier micro.Headers]: the carrier is the header map
    itself. *)
Module microHeaderCarrier.

Definition Get (m : Headers) (key : string) : string := Header.Get m key.

(** [m[key] = []string{val}] *)
Definition Set_ (m : Headers) (key val : string) : Headers :=
  <[key := [val]]> m.

(** The keys of the map, in the order the iteration gives them (Go leaves
    that order open). *)
Definition Keys (m : Headers) : list string := (map_to_list m).*1.

End microHeaderCarrier.

(** [propagation.TextMapPropagator]: [Extract] reads the carrier through its
    [Get] and [Keys]; [Inject] gives the pairs it hands to the carrier's
    [Set], in order. *)
Record TextMapPropagator : Type := mkPropagator {
  Extract : Context → (string → string) → list string → Context;
  Inject : Context → list (string * string)
}.

(** [trace.Tracer]: [Start] gives the new span, a child of the context's. *)
Record Tracer : Type := mkTracer { Start : Context → string → SpanContext }.

Definition InjectTraceHeaders (ctx : Context) (p : TextMapPropagator)
    (headers : Headers) : Headers :=
  foldl (λ m kv, microHeaderCarrier.Set_ m kv.1 kv.2) headers (Inject p ctx).

(** The body of the internal-error response. *)
Definition internalErrorBody : string :=
  "{" +:+ sderrors.dquote +:+ "errors" +:+ sderrors.dquote +:+ ": ["
      +:+ sderrors.dquote +:+ "internal server error" +:+ sderrors.dquote
      +:+ "]}".

Definition MsgID (h : Headers) : string + error :=
  let id := Header.Get h "X-Request-ID" in
  if String.eqb id "" then inr (errorString "required request ID not found")
  else inl id.

(** The loop [for k, v := range parsed] of [buildQueryHeaders]: each
    parameter is written under its prefixed key. *)
Definition addQueryHeaders (headers : Headers) (parsed : url.Values)
    : Headers :=
  map_fold (λ k v hs, <["X-Sencillo-" +:+ k := v]> hs) headers parsed.

(** Create Sencillo specific headers from the NATS bridge plugin headers. *)
Definition buildQueryHeaders : M (option error) :=
  headers ← getHeaders;
  let query := Header.Get headers "X-NatsBridge-UrlQuery" in
  let '(parsed, err) := url.ParseQuery query in
  match err with
  | Some err => mret (Some err)
  | None => putHeaders (addQueryHeaders headers parsed);; mret None
  end.

Definition GetQueryHeaders (headers : Headers) (key : string) : list string :=
  let k := "X-Sencillo-" +:+ key in
  Header.Values headers k.

Definition handleRequestError (logger : Logger) (err : error) : M unit :=
  match asClientError err with
  | Some ce =>
      forEach (m_LoggedError ce) (λ v, logError logger (Error v));;
      emit (RequestError (fmt.Sprintf_d (m_Code ce))
                         (http.StatusText (m_Code ce)) (m_Body ce))
  | None =>
      logError logger (Error err);;
      emit (RequestError "500" "internal server error" internalErrorBody)
  end.

(** The deferred duration log of both dispatchers. *)
Definition logDuration (reqLogger : Logger) (clk : Clock) : M unit :=
  logInfo reqLogger
    ("duration "
       +:+ fmt.Sprintf_d
             (time.Milliseconds (time.Since (clock_end clk) (clock_start clk)))
       +:+ "ms").

(** The call of the application handler on the live header map. *)
Definition invoke (logger : Logger) (handler : Headers → HandlerResult)
    : M (option error) :=
  λ s,
    let res := handler (st_headers s) in
    (res_err res,
     {| st_headers := res_headers res;
        st_trace := st_trace s ++ Invoke (st_headers s) logger
                                 :: (HandlerAction <$> res_actions res) |}).

(* ===================================================================== *)
(** * The dispatcher with tracing (transports/nats/micro.go)              *)
(* ===================================================================== *)
Module Traced.

Record HandlerContext : Type := mkHandlerContext {
  h_Logger : Logger;
  h_Conn : Conn;
  h_Tracer : Tracer;
  h_Propagator : TextMapPropagator
}.

Record AppContext : Type := mkAppContext {
  a_Conn : Conn;
  a_Logger : Logger;
  a_Tracer : Tracer;
  a_Propagator : TextMapPropagator
}.

(** [func(ctx context.Context, r micro.Request, h HandlerContext) error];
    the request is its immutable part and its live header map. *)
Definition AppHandler : Type :=
  Context → Request → HandlerContext → Headers → HandlerResult.

Definition ErrorHandler (name : string) (a : AppContext)
    (handler : AppHandler) (r : Request) (clk : Clock) : M unit :=
  let ctx : Context := None in
  headers ← getHeaders;
  match MsgID headers with
  | inr err =>
      handleRequestError (a_Logger a)
        (clientError (sderrors.NewClientError err 400 []))
  | inl id =>
      let reqLogger :=
        With (a_Logger a) [("request_id", id); ("path", Subject r)] in
      defer (logDuration reqLogger clk) (
        err ← buildQueryHeaders;
        match err with
        | Some err => handleRequestError reqLogger err
        | None => mret tt
        end;;
        let handlerCtx :=
          {| h_Logger := reqLogger; h_Conn := a_Conn a;
             h_Tracer := a_Tracer a; h_Propagator := a_Propagator a |} in
        headers ← getHeaders;
        let newCtx :=
          Extract (a_Propagator a) ctx (microHeaderCarrier.Get headers)
                  (microHeaderCarrier.Keys headers) in
        let span := Start (a_Tracer a) newCtx name in
        let startCtx : Context := Some span in
        emit (Trace (SpanStart newCtx name span));;
        emit (Trace (SpanSetAttributes "X-Request-ID" id));;
        defer (emit (Trace SpanEnd)) (
          err ← invoke reqLogger (handler startCtx r handlerCtx);
          match err with
          | None => emit (Trace (SpanSetStatus codes_Ok "success"))
          | Some err =>
              emit (Trace (SpanSetStatus codes_Error (Error err)));;
              emit (Trace (SpanRecordError err));;
              handleRequestError reqLogger err
          end))
  end.

End Traced.

(* ===================================================================== *)
(** * The dispatcher without tracing (the sibling file)                   *)
(* ===================================================================== *)
Module Plain.

Record HandlerContext : Type := mkHandlerContext {
  h_Logger : Logger;
  h_Conn : Conn
}.

Record AppContext : Type := mkAppContext {
  a_Conn : Conn;
  a_Logger : Logger
}.

(** [func(r micro.Request, h HandlerContext) error] *)
Definition AppHandler : Type :=
  Request → HandlerContext → Headers → HandlerResult.

Definition ErrorHandler (a : AppContext) (handler : AppHandler)
    (r : Request) (clk : Clock) : M unit :=
  headers ← getHeaders;
  match MsgID headers with
  | inr err =>
      handleRequestError (a_Logger a)
        (clientError (sderrors.NewClientError err 400 []))
  | inl id =>
      let reqLogger :=
        With (a_Logger a) [("request_id", id); ("path", Subject r)] in
      defer (logDuration reqLogger clk) (
        err ← buildQueryHeaders;
        match err with
        | Some err => handleRequestError reqLogger err
        | None => mret tt
        end;;
        let ctx := {| h_Logger := reqLogger; h_Conn := a_Conn a |} in
        err ← invoke reqLogger (handler r ctx);
        match err with
        | None => mret tt
        | Some err => handleRequestError reqLogger err
        end)
  end.

End Plain.

(* ===================================================================== *)
(** * Example values                                                      *)
(* ===================================================================== *)
Module Examples.

Definition logger : Logger := {| attrs := [("service", "orders")] |}.

(** A propagator that carries the trace id under one header. *)
Definition propagator : TextMapPropagator :=
  {| Extract := λ ctx get keys,
       if String.eqb (get "traceparent") "" then ctx
       else Some {| TraceID := get "traceparent"; SpanID := "remote" |};
     Inject := λ ctx,
       match ctx with
       | Some sc => [("traceparent", TraceID sc)]
       | None => []
       end |}.

Definition tracer : Tracer :=
  {| Start := λ ctx name,
       {| TraceID := match ctx with Some sc => TraceID sc | None => "t1" end;
          SpanID := name |} |}.

Definition app : Traced.AppContext :=
  {| Traced.a_Conn := connHandle 1; Traced.a_Logger := logger;
     Traced.a_Tracer := tracer; Traced.a_Propagator := propagator |}.

Definition plainApp : Plain.AppContext :=
  {| Plain.a_Conn := connHandle 1; Plain.a_Logger := logger |}.

(** A handler that answers and returns [nil]. *)
Definition okPlain : Plain.AppHandler :=
  λ r hc hs,
    {| res_headers := hs; res_actions := [ActRespond "ok"];
       res_err := None |}.

Definition okHandler : Traced.AppHandler := λ ctx r hc, okPlain r
  {| Plain.h_Logger := Traced.h_Logger hc;
     Plain.h_Conn := Traced.h_Conn hc |}.

(** A handler that fails with an error that is no client error. *)
Definition failingHandler : Traced.AppHandler :=
  λ ctx r hc hs,
    {| res_headers := hs; res_actions := [];
       res_err := Some (errorString "database unreachable") |}.

Definition request : Request := {| Subject := "orders.get"; Data := "" |}.

Definition clock : Clock :=
  {| clock_start := 1000; clock_end := 5001000 |}.

Definition reqLogger : Logger :=
  With logger [("request_id", "abc"); ("path", "orders.get")].

Definition bridged : Headers :=
  {[ "X-Request-ID" := ["abc"];
     "X-NatsBridge-UrlQuery" := ["a=1&a=2&b=3"] ]}.

Definition malformed : Headers :=
  {[ "X-Request-ID" := ["abc"]; "X-NatsBridge-UrlQuery" := ["%zz"] ]}.

Definition unbridged : Headers := {[ "X-Request-ID" := ["abc"] ]}.

End Examples.

(* ===================================================================== *)
(** * transports/nats/micro.go: the helpers around the dispatcher         *)
(* ===================================================================== *)

(** [nats.Msg], by the fields the helpers set. *)
Record Msg : Type := mkMsg {
  msg_Subject : string;
  msg_Header : Headers;
  msg_Data : string
}.

(** [RequestLogger(l, r)]: the logger with the request's ID, or the error of
    [MsgID]. *)
Definition RequestLogger (l : Logger) (h : Headers) : Logger + error :=
  match MsgID h with
  | inr err => inr err
  | inl id => inl (With l [("request_id", id)])
  end.

(** [NewMsgWithID()]; [id] is the text of the fresh [ksuid.New()]. *)
Definition NewMsgWithID (id : string) : Msg :=
  {| msg_Subject := ""; msg_Header := {[ "X-Request-ID" := [id] ]};
     msg_Data := "" |}.

(** [RequestToMsg(r)]: the request's header map and data; no subject. *)
Definition RequestToMsg (h : Headers) (r : Request) : Msg :=
  {| msg_Subject := ""; msg_Header := h; msg_Data := Data r |}.

(** The method [InjectTraceHeaders] of the handler context. *)
Definition HandlerContext_InjectTraceHeaders (h : Traced.HandlerContext)
    (ctx : Context) (headers : Headers) : Headers :=
  InjectTraceHeaders ctx (Traced.h_Propagator h) headers.

(* ===================================================================== *)
(** * transports/http/middleware/middleware.go                            *)
(* ===================================================================== *)

(** ** net/http's header map *)
Module httpHeader.

(** The bytes allowed in a header field name (the token characters). *)
Definition validHeaderFieldByte (c : ascii) : bool :=
  let n := N_of_ascii c in
  ((48 <=? n) && (n <=? 57) || (97 <=? n) && (n <=? 122)
   || (65 <=? n) && (n <=? 90)
   || (n =? 33) || (35 <=? n) && (n <=? 39) || (n =? 42) || (n =? 43)
   || (n =? 45) || (n =? 46) || (n =? 94) || (n =? 95) || (n =? 96)
   || (n =? 124) || (n =? 126))%N.

Fixpoint allValid (s : string) : bool :=
  match s with
  | EmptyString => true
  | String c rest => validHeaderFieldByte c && allValid rest
  end.

(** The canonical case: a capital at the start and after each hyphen,
    small letters elsewhere. *)
Fixpoint canonicalCase (upper : bool) (s : string) : string :=
  match s with
  | EmptyString => ""
  | String c rest =>
      let n := N_of_ascii c in
      let c' :=
        if upper && (97 <=? n)%N && (n <=? 122)%N then ascii_of_N (n - 32)
        else if negb upper && (65 <=? n)%N && (n <=? 90)%N
             then ascii_of_N (n + 32)
        else c in
      String c' (canonicalCase (Ascii.eqb c' "-") rest)
  end.

(** [textproto.CanonicalMIMEHeaderKey]: a key with a byte that is not
    allowed in a field name is left as it is. *)
Definition CanonicalMIMEHeaderKey (s : string) : string :=
  if allValid s then canonicalCase true s else s.

(** [Header.Get]: the first value under the canonical key, or the empty
    string. *)
Definition Get (h : Headers) (key : string) : string :=
  match h !! CanonicalMIMEHeaderKey key with
  | Some (v :: _) => v
  | _ => ""
  end.

(** [Header.Add]: appends to the values under the canonical key. *)
Definition Add (h : Headers) (key value : string) : Headers :=
  let key := CanonicalMIMEHeaderKey key in
  <[key := default [] (h !! key) ++ [value]]> h.

End httpHeader.

Module middleware.

(** An [http.Handler], by what it computes from the response's and the
    request's header maps. *)
Definition Handler (A : Type) : Type := Headers → Headers → A.

(** [RequestID(h)]; [id] is the text of the [ksuid.New()] it would draw.
    The arguments of the result are the header map of the response writer
    and that of the request. *)
Definition RequestID {A} (h : Handler A) (id : string) : Handler A :=
  λ w r,
    if String.eqb (httpHeader.Get r "X-Request-ID") "" then
      let r := httpHeader.Add r "X-Request-ID" id in
      let w := httpHeader.Add w "X-Request-ID" id in
      h w r
    else h w r.

(** The calls a handler makes on its response writer. *)
Inductive WriterCall : Type :=
  | CallWriteHeader (status : Z)
  | CallWrite (b : string)
  | CallFlush.

(** [StatusRec]: the wrapped writer, by the calls it has received and by
    whether it is an [http.Flusher], and the captured status. *)
Record StatusRec : Type := mkStatusRec {
  ResponseWriter : list WriterCall;
  isFlusher : bool;
  RecStatus : Z
}.

(** [WriteHeader] captures the status code. *)
Definition WriteHeader (r : StatusRec) (status : Z) : StatusRec :=
  {| ResponseWriter := ResponseWriter r ++ [CallWriteHeader status];
     isFlusher := isFlusher r; RecStatus := status |}.

(** [Write] also sets the status to 200 if it is not set yet. *)
Definition Write (r : StatusRec) (b : string) : StatusRec :=
  {| ResponseWriter := ResponseWriter r ++ [CallWrite b];
     isFlusher := isFlusher r;
     RecStatus := if RecStatus r =? 0 then 200 else RecStatus r |}.

(** [Flush] reaches the wrapped writer when it supports it. *)
Definition Flush (r : StatusRec) : StatusRec :=
  if isFlusher r then
    {| ResponseWriter := ResponseWriter r ++ [CallFlush];
       isFlusher := isFlusher r; RecStatus := RecStatus r |}
  else r.

(** One call of the handler on the recorder. *)
Definition perform (r : StatusRec) (c : WriterCall) : StatusRec :=
  match c with
  | CallWriteHeader status => WriteHeader r status
  | CallWrite b => Write r b
  | CallFlush => Flush r
  end.

(** The calls on the Prometheus vectors: the counter's [Inc] and the
    histogram's [Observe], with the label values; [elapsed] is the duration
    (in nanoseconds) whose seconds are observed. *)
Inductive MetricCall : Type :=
  | CounterInc (status method path : string)
  | HistogramObserve (status method path : string) (elapsed : Z).

(** [CodeStats(h, vec, hist)] on a request with the given method and path,
    for a handler that makes the calls [calls] on the writer it is given:
    the wrapped writer and the calls on the two vectors. *)
Definition CodeStats (calls : list WriterCall) (w : list WriterCall)
    (flusher : bool) (method path : string) (clk : Clock)
    : StatusRec * list MetricCall :=
  let rec := {| ResponseWriter := w; isFlusher := flusher;
                RecStatus := 200 |} in
  let rec := foldl perform rec calls in
  (rec,
   [CounterInc (fmt.Sprintf_d (RecStatus rec)) method path;
    HistogramObserve (fmt.Sprintf_d (RecStatus rec)) method path
      (time.Since (clock_end clk) (clock_start clk))]).

End middleware.

(* ===================================================================== *)
(** * The generated service: the loop of WatchForConfig                   *)
(* ===================================================================== *)
Module service.





End service.

(* ===================================================================== *)
(** * Reading the record of calls                                         *)
(* ===================================================================== *)

(** The calls that one [handleRequestError logger err] makes. *)
Definition errorEvents (logger : Logger) (err : error) : list Event :=
  match asClientError err with
  | Some ce =>
      ((λ v, LogRecord LevelError (attrs logger) (Error v))
         <$> m_LoggedError ce)
      ++ [RequestError (fmt.Sprintf_d (m_Code ce))
                       (http.StatusText (m_Code ce)) (m_Body ce)]
  | None =>
      [LogRecord LevelError (attrs logger) (Error err);
       RequestError "500" "internal server error" internalErrorBody]
  end.

(** A record of calls without the calls on the tracer and the span. *)
Fixpoint withoutTracing (t : list Event) : list Event :=
  match t with
  | [] => []
  | Trace _ :: rest => withoutTracing rest
  | e :: rest => e :: withoutTracing rest
  end.

Definition isInvoke (e : Event) : bool :=
  match e with Invoke _ _ => true | _ => false end.

Definition isTrace (e : Event) : bool :=
  match e with Trace _ => true | _ => false end.

Definition isRequestError (e : Event) : bool :=
  match e with RequestError _ _ _ => true | _ => false end.

(** The message of the deferred duration log. *)
Definition durationMessage (ms : Z) : string :=
  "duration " +:+ fmt.Sprintf_d ms +:+ "ms".

Definition isDurationLog (e : Event) : Prop :=
  ∃ fields ms, e = LogRecord LevelInfo fields (durationMessage ms).

(** The request-scoped logger of both dispatchers. *)
Definition requestLogger (l : Logger) (id : string) (r : Request) : Logger :=
  With l [("request_id", id); ("path", Subject r)].

(** What the dispatcher without tracing keeps of the configuration and of
    the handler context of the one with tracing. *)
Definition plainAppContext (a : Traced.AppContext) : Plain.AppContext :=
  {| Plain.a_Conn := Traced.a_Conn a; Plain.a_Logger := Traced.a_Logger a |}.

Definition plainHandlerContext (h : Traced.HandlerContext)
    : Plain.HandlerContext :=
  {| Plain.h_Logger := Traced.h_Logger h; Plain.h_Conn := Traced.h_Conn h |}.

(** The header map after the bridge step: with the parameters added when
    the query parses, as it was when it does not. *)
Definition bridgedHeaders (h : Headers) : Headers :=
  match url.ParseQuery (Header.Get h "X-NatsBridge-UrlQuery") with
  | (parsed, None) => addQueryHeaders h parsed
  | (_, Some _) => h
  end.

(** The calls of the bridge step: none when the query parses, the report
    of the error when it does not. *)
Definition bridgeReport (reqLogger : Logger) (h : Headers) : list Event :=
  match url.ParseQuery (Header.Get h "X-NatsBridge-UrlQuery") with
  | (_, None) => []
  | (_, Some err) => errorEvents reqLogger err
  end.

(** The milliseconds that the deferred function logs. *)
Definition elapsedMs (clk : Clock) : Z :=
  time.Milliseconds (time.Since (clock_end clk) (clock_start clk)).

(** The handler context that the dispatcher with tracing builds. *)
Definition tracedHandlerContext (a : Traced.AppContext) (reqLogger : Logger)
    : Traced.HandlerContext :=
  {| Traced.h_Logger := reqLogger; Traced.h_Conn := Traced.a_Conn a;
     Traced.h_Tracer := Traced.a_Tracer a;
     Traced.h_Propagator := Traced.a_Propagator a |}.

(** The context extracted from the headers [h], and the span started as its
    child. *)
Definition extractedContext (a : Traced.AppContext) (h : Headers) : Context :=
  Extract (Traced.a_Propagator a) None (microHeaderCarrier.Get h)
          (microHeaderCarrier.Keys h).

Definition startedSpan (a : Traced.AppContext) (name : string) (h : Headers)
    : SpanContext :=
  Start (Traced.a_Tracer a) (extractedContext a h) name.

(** The calls on the tracer and the span in a record of calls. *)
Fixpoint tracingOnly (t : list Event) : list TraceOp :=
  match t with
  | [] => []
  | Trace op :: rest => op :: tracingOnly rest
  | _ :: rest => tracingOnly rest
  end.

(** The error responses in a record of calls. *)
Fixpoint errorResponses (t : list Event) : list Event :=
  match t with
  | [] => []
  | RequestError c d b :: rest => RequestError c d b :: errorResponses rest
  | _ :: rest => errorResponses rest
  end.

(** The value of the last pair with key [k]. *)
Definition lastValue (k : string) (pairs : list (string * string))
    : option string :=
  foldl (λ acc kv, if String.eqb kv.1 k then Some kv.2 else acc) None pairs.





(** The status of the last [WriteHeader] among the calls, if any. *)
Definition lastWriteHeader (calls : list middleware.WriterCall) : option Z :=
  foldl (λ acc c,
           match c with
           | middleware.CallWriteHeader s => Some s
           | _ => acc
           end) None calls.

(** The calls that reach the wrapped writer. *)
Definition forwarded (flusher : bool) (calls : list middleware.WriterCall)
    : list middleware.WriterCall :=
  List.filter (λ c, match c with
                    | middleware.CallFlush => flusher
                    | _ => true
                    end) calls.

(** The decoded pair of one [&]-separated piece of a query string, when the
    loop of [parseQuery] stores one for it. *)
Definition segmentPair (key : string) : option (string * string) :=
  if strings.Contains key ";" then None
  else if String.eqb key "" then None
  else
    let '(key, value, _) := strings.Cut key "=" in
    match url.QueryUnescape key, url.QueryUnescape value with
    | inl key, inl value => Some (key, value)
    | _, _ => None
    end.

(** The parameters of a query string, in the order they are written. *)
Definition queryPairs (query : string) : list (string * string) :=
  omap segmentPair (url.segments query).

(** The values given to the parameter [k], in the order they are written. *)
Fixpoint valuesOf (k : string) (pairs : list (string * string))
    : list string :=
  match pairs with
  | [] => []
  | (k', v) :: rest =>
      if String.eqb k' k then v :: valuesOf k rest else valuesOf k rest
  end.

(** A text between double quotes. *)
Definition quoted (s : string) : string :=
  sderrors.dquote +:+ s +:+ sderrors.dquote.

(** The envelope around one quoted detail. *)
Definition envelope1 (detail : string) : string :=
  "{" +:+ quoted "errors" +:+ ": [" +:+ quoted detail +:+ "]}".

(** Printable ASCII text with no double quote and no backslash in it. *)
Fixpoint plainText (s : string) : bool :=
  match s with
  | EmptyString => true
  | String c rest =>
      let n := N_of_ascii c in
      ((32 <=? n) && (n <? 127) && negb (n =? 34) && negb (n =? 92))%N
      && plainText rest
  end.

(* ===================================================================== *)
(** * The library models on examples                                    *)
(* ===================================================================== *)

Example Sprintf_d_400 : fmt.Sprintf_d 400 = "400".
Proof. reflexivity. Qed.

Example Sprintf_d_neg : fmt.Sprintf_d (-7) = "-7".
Proof. reflexivity. Qed.

Example Join_three : strings.Join ["a"; "b"; "c"] ", " = "a, b, c".
Proof. reflexivity. Qed.

Example Cut_found : strings.Cut "a=1=2" "="%char = ("a", "1=2", true).
Proof. reflexivity. Qed.

(** [segments] follows the loop's cuts. *)
Lemma segments_Cut (c : ascii) (rest : string) :
  let '(key, query', _) := strings.Cut (String c rest) "&" in
  url.segments (String c rest) = key :: url.segments query'.
Proof.
  revert c. induction rest as [|d rest IH]; intros c.
  - simpl. destruct (Ascii.eqb c "&"); reflexivity.
  - specialize (IH d). cbn [strings.Cut url.segments] in *.
    destruct (Ascii.eqb c "&"); [reflexivity|].
    destruct (Ascii.eqb d "&"); [reflexivity|].
    destruct (strings.Cut rest "&") as [[before after] found].
    rewrite IH. reflexivity.
Qed.

Example ParseQuery_ab :
  url.ParseQuery "a=1&a=2&b=3"
  = ({[ "a" := ["1"; "2"]; "b" := ["3"] ]}, None).
Proof. vm_compute. reflexivity. Qed.

Example ParseQuery_bad :
  (url.ParseQuery "a=1&x=%zz").2 = Some (EscapeError "%zz").
Proof. vm_compute. reflexivity. Qed.

Example ParseQuery_plus :
  url.ParseQuery "q=a+b%21" = ({[ "q" := ["a b!"] ]}, None).
Proof. vm_compute. reflexivity. Qed.

(** A name without [=] has the empty value; empty pieces are skipped; a
    semicolon makes the piece an error and the other pieces still parse. *)
Example ParseQuery_edges :
  url.ParseQuery "a&&b=" = ({[ "a" := [""]; "b" := [""] ]}, None)
  ∧ url.ParseQuery "a=1;b=2&c=3"
    = ({[ "c" := ["3"] ]},
       Some (errorString "invalid semicolon separator in query"))
  ∧ url.ParseQuery "" = (∅, None).
Proof. repeat split; vm_compute; reflexivity. Qed.

Example segments_pieces :
  url.segments "a=1&&b=2&" = ["a=1"; ""; "b=2"].
Proof. reflexivity. Qed.

(** A request with a bridged query and a handler that succeeds. *)
Example dispatch_bridged :
  run (Traced.ErrorHandler "orders" Examples.app Examples.okHandler
         Examples.request Examples.clock) Examples.bridged
  = (tt, {| st_headers :=
              <["X-Sencillo-a" := ["1"; "2"]]>
                (<["X-Sencillo-b" := ["3"]]> Examples.bridged);
            st_trace :=
              [Trace (SpanStart None "orders"
                        {| TraceID := "t1"; SpanID := "orders" |});
               Trace (SpanSetAttributes "X-Request-ID" "abc");
               Invoke (<["X-Sencillo-a" := ["1"; "2"]]>
                         (<["X-Sencillo-b" := ["3"]]> Examples.bridged))
                      Examples.reqLogger;
               HandlerAction (ActRespond "ok");
               Trace (SpanSetStatus codes_Ok "success");
               Trace SpanEnd;
               LogRecord LevelInfo (attrs Examples.reqLogger)
                         "duration 5ms"] |}).
Proof. vm_compute. reflexivity. Qed.

(** A handler that fails with an error that is no client error. *)
Example dispatch_failing :
  run (Plain.ErrorHandler Examples.plainApp
         (λ r hc, Examples.failingHandler None r
                    (tracedHandlerContext Examples.app (Plain.h_Logger hc)))
         Examples.request Examples.clock) Examples.unbridged
  = (tt, {| st_headers := Examples.unbridged;
            st_trace :=
              [Invoke Examples.unbridged Examples.reqLogger;
               LogRecord LevelError (attrs Examples.reqLogger)
                         "database unreachable";
               RequestError "500" "internal server error" internalErrorBody;
               LogRecord LevelInfo (attrs Examples.reqLogger)
                         "duration 5ms"] |}).
Proof. vm_compute. reflexivity. Qed.

(** A trace context injected into the headers of a fresh message is the
    one extracted from them on the receiving side. *)
Example inject_then_extract :
  let sent := Some {| TraceID := "4bf92f"; SpanID := "00f067" |} in
  let headers := InjectTraceHeaders sent Examples.propagator ∅ in
  headers = {[ "traceparent" := ["4bf92f"] ]}
  ∧ Extract Examples.propagator None (microHeaderCarrier.Get headers)
            (microHeaderCarrier.Keys headers)
    = Some {| TraceID := "4bf92f"; SpanID := "remote" |}.
Proof. split; vm_compute; reflexivity. Qed.

(** The saturated difference of two readings of the clock. *)
Example subMono_saturates :
  time.subMono (2 ^ 63 - 1) (- 2 ^ 63) = time.maxDuration
  ∧ time.subMono 7000000 2000000 = 5000000.
Proof. split; reflexivity. Qed.

(* ===================================================================== *)
(** * The header bridge                                                   *)
(* ===================================================================== *)
Section HeaderBridge.

Implicit Types (headers : Headers) (parsed : url.Values) (k : string).

Lemma prefixed_inj k k' :
  "X-Sencillo-" +:+ k = "X-Sencillo-" +:+ k' → k = k'.
Proof. intros H. cbv [String.append] in H. by injection H. Qed.

(** A prefixed key holds the parameter's values, or keeps what the request
    had there when the query has no such parameter. *)
Lemma addQueryHeaders_prefixed headers parsed k :
  addQueryHeaders headers parsed !! ("X-Sencillo-" +:+ k)
  = match parsed !! k with
    | Some vs => Some vs
    | None => headers !! ("X-Sencillo-" +:+ k)
    end.
Proof.
  unfold addQueryHeaders. revert k.
  apply (map_fold_weak_ind (λ hs m, ∀ k,
    hs !! ("X-Sencillo-" +:+ k)
    = match m !! k with
      | Some vs => Some vs
      | None => headers !! ("X-Sencillo-" +:+ k)
      end)).
  - intros k. by rewrite lookup_empty.
  - intros i x m r Hi IH k. destruct (decide (i = k)) as [->|Hne].
    + by rewrite !lookup_insert_eq.
    + rewrite lookup_insert_ne; [|by intros ?%prefixed_inj].
      rewrite lookup_insert_ne; [|done]. apply IH.
Qed.

(** A key that is no prefixed parameter name is left as it was. *)
Lemma addQueryHeaders_other headers parsed key :
  (∀ k, parsed !! k = None ∨ key ≠ "X-Sencillo-" +:+ k) →
  addQueryHeaders headers parsed !! key = headers !! key.
Proof.
  unfold addQueryHeaders.
  apply (map_fold_weak_ind (λ hs m,
    (∀ k, m !! k = None ∨ key ≠ "X-Sencillo-" +:+ k) →
    hs !! key = headers !! key)).
  - done.
  - intros i x m r Hi IH Hkey.
    destruct (Hkey i) as [Hnone|Hne].
    { by rewrite lookup_insert_eq in Hnone. }
    rewrite lookup_insert_ne; [|done]. apply IH. intros k.
    destruct (decide (i = k)) as [->|Hik]; [by left|].
    destruct (Hkey k) as [Hk|Hk]; [|by right].
    left. by rewrite lookup_insert_ne in Hk.
Qed.

Lemma addQueryHeaders_empty headers : addQueryHeaders headers ∅ = headers.
Proof. unfold addQueryHeaders. by rewrite map_fold_empty. Qed.

Lemma buildQueryHeaders_ok headers parsed trace :
  url.ParseQuery (Header.Get headers "X-NatsBridge-UrlQuery")
    = (parsed, None) →
  buildQueryHeaders {| st_headers := headers; st_trace := trace |}
  = (None, {| st_headers := addQueryHeaders headers parsed;
              st_trace := trace |}).
Proof.
  intros Hq. unfold buildQueryHeaders, getHeaders, mbind, M_bind.
  cbn [st_headers]. by rewrite Hq.
Qed.

Lemma buildQueryHeaders_err headers parsed err trace :
  url.ParseQuery (Header.Get headers "X-NatsBridge-UrlQuery")
    = (parsed, Some err) →
  buildQueryHeaders {| st_headers := headers; st_trace := trace |}
  = (Some err, {| st_headers := headers; st_trace := trace |}).
Proof.
  intros Hq. unfold buildQueryHeaders, getHeaders, mbind, M_bind.
  cbn [st_headers]. by rewrite Hq.
Qed.

End HeaderBridge.

(** One turn of the parser's loop appends the piece's value to the list of
    its key and leaves the other keys. *)
Lemma parseQuery_step_lookup (m : url.Values) (e : option error)
    (key k : string) :
  (url.parseQuery_step (m, e) key).1 !! k
  = match segmentPair key with
    | Some (k', v) =>
        if String.eqb k' k then Some (default [] (m !! k) ++ [v]) else m !! k
    | None => m !! k
    end.
Proof.
  unfold url.parseQuery_step, segmentPair.
  destruct (strings.Contains key ";"); [done|].
  destruct (String.eqb key ""); [done|].
  destruct (strings.Cut key "=") as [[k0 v0] found].
  destruct (url.QueryUnescape k0) as [k'|e1]; [|done].
  destruct (url.QueryUnescape v0) as [v'|e2]; [|done].
  cbn [fst]. destruct (String.eqb_spec k' k) as [->|Hne].
  - by rewrite lookup_insert_eq.
  - by rewrite lookup_insert_ne.
Qed.

Lemma foldl_parseQuery_step_lookup (keys : list string)
    (acc : url.Values * option error) (k : string) :
  (foldl url.parseQuery_step acc keys).1 !! k
  = match valuesOf k (omap segmentPair keys) with
    | [] => acc.1 !! k
    | new => Some (default [] (acc.1 !! k) ++ new)
    end.
Proof.
  revert acc. induction keys as [|key keys IH]; intros [m e]; [done|].
  cbn [foldl omap list_omap]. rewrite IH.
  destruct (url.parseQuery_step (m, e) key) as [m' e'] eqn:Hstep.
  assert (Hm' : m' !! k
                = (url.parseQuery_step (m, e) key).1 !! k) by by rewrite Hstep.
  rewrite parseQuery_step_lookup in Hm'. cbn [fst]. rewrite Hm'.
  destruct (segmentPair key) as [[k' v]|]; [|done].
  cbn [valuesOf]. destruct (String.eqb k' k); [|done].
  destruct (valuesOf k (omap segmentPair keys)) as [|v1 vs]; [done|].
  unfold default at 1. cbn [from_option id]. by rewrite <- app_assoc.
Qed.

(** [url.ParseQuery] gives each parameter its values in the order they
    are written in the query string. *)
Lemma ParseQuery_lookup (query k : string) :
  (url.ParseQuery query).1 !! k
  = match valuesOf k (queryPairs query) with
    | [] => None
    | vs => Some vs
    end.
Proof.
  unfold url.ParseQuery, queryPairs. rewrite foldl_parseQuery_step_lookup.
  cbn [fst]. rewrite lookup_empty. cbn [default app].
  by destruct (valuesOf k _).
Qed.

(** C6: after [buildQueryHeaders] succeeds on a request, every parameter
    that [url.ParseQuery] found is stored under its name prefixed
    [X-Sencillo-] with its list of values, and [GetQueryHeaders] on the
    parameter's name returns that list, which holds the parameter's values
    in the order the query string gives them; a key that is no prefixed
    parameter name keeps its values.  For the query string
    [a=1&a=2&b=3], [GetQueryHeaders] gives [1; 2] for [a] and [3] for [b]. *)
Theorem bridge_preserves_parameters (headers : Headers)
    (parsed : url.Values) (trace : list Event)
    (Hparsed : url.ParseQuery (Header.Get headers "X-NatsBridge-UrlQuery")
               = (parsed, None)) :
  ∃ headers',
    buildQueryHeaders {| st_headers := headers; st_trace := trace |}
    = (None, {| st_headers := headers'; st_trace := trace |})
    ∧ (∀ k vs, parsed !! k = Some vs →
         headers' !! ("X-Sencillo-" +:+ k) = Some vs
         ∧ GetQueryHeaders headers' k = vs)
    ∧ (∀ k vs,
         valuesOf k (queryPairs (Header.Get headers "X-NatsBridge-UrlQuery"))
         = vs → vs ≠ [] → GetQueryHeaders headers' k = vs)
    ∧ (∀ key, (∀ k, parsed !! k = None ∨ key ≠ "X-Sencillo-" +:+ k) →
         headers' !! key = headers !! key)
    ∧ (Header.Get headers "X-NatsBridge-UrlQuery" = "a=1&a=2&b=3" →
         GetQueryHeaders headers' "a" = ["1"; "2"]
         ∧ GetQueryHeaders headers' "b" = ["3"]).
Proof.
  exists (addQueryHeaders headers parsed).
  assert (Hget : ∀ k vs, parsed !! k = Some vs →
            addQueryHeaders headers parsed !! ("X-Sencillo-" +:+ k) = Some vs
            ∧ GetQueryHeaders (addQueryHeaders headers parsed) k = vs).
  { intros k vs Hk. unfold GetQueryHeaders, Header.Values.
    rewrite addQueryHeaders_prefixed, Hk. done. }
  split; [by apply buildQueryHeaders_ok|].
  split; [exact Hget|].
  split.
  { intros k vs Hvs Hne. apply Hget.
    pose proof (ParseQuery_lookup
                  (Header.Get headers "X-NatsBridge-UrlQuery") k) as Hk.
    rewrite Hparsed, Hvs in Hk. cbn [fst] in Hk. by destruct vs. }
  split; [intros key Hkey; by apply addQueryHeaders_other|].
  intros Hq. rewrite Hq in Hparsed.
  assert (parsed = {[ "a" := ["1"; "2"]; "b" := ["3"] ]}) as ->.
  { pose proof ParseQuery_ab as Hab. congruence. }
  split; apply Hget; reflexivity.
Qed.

Lemma bridge_preserves_parameters_witness :
  url.ParseQuery (Header.Get Examples.bridged "X-NatsBridge-UrlQuery")
  = ({[ "a" := ["1"; "2"]; "b" := ["3"] ]}, None)
  ∧ ∃ headers',
      buildQueryHeaders {| st_headers := Examples.bridged; st_trace := [] |}
      = (None, {| st_headers := headers'; st_trace := [] |})
      ∧ GetQueryHeaders headers' "a" = ["1"; "2"]
      ∧ GetQueryHeaders headers' "b" = ["3"].
Proof.
  assert (H : url.ParseQuery
                (Header.Get Examples.bridged "X-NatsBridge-UrlQuery")
              = ({[ "a" := ["1"; "2"]; "b" := ["3"] ]}, None))
    by (vm_compute; reflexivity).
  split; [exact H|].
  destruct (bridge_preserves_parameters Examples.bridged _ [] H)
    as (headers' & Hrun & _ & _ & _ & Hab).
  exists headers'. split; [exact Hrun|]. apply Hab. reflexivity.
Defined.

(* ===================================================================== *)
(** * What a dispatch does, call by call                                  *)
(* ===================================================================== *)
Section Runs.

Implicit Types (s : State) (logger : Logger) (err : error) (h : Headers).

Lemma emit_run e s :
  emit e s
  = (tt, {| st_headers := st_headers s; st_trace := st_trace s ++ [e] |}).
Proof. reflexivity. Qed.

Lemma forEach_logError logger (l : list error) s :
  forEach l (λ v, logError logger (Error v)) s
  = (tt, {| st_headers := st_headers s;
            st_trace := st_trace s
              ++ ((λ v, LogRecord LevelError (attrs logger) (Error v))
                    <$> l) |}).
Proof.
  revert s. induction l as [|v l IH]; intros s.
  - cbn. rewrite app_nil_r. by destruct s.
  - cbn [forEach fmap list_fmap]. unfold mbind, M_bind, logError.
    rewrite emit_run, IH. cbn [st_headers st_trace].
    by rewrite <- app_assoc.
Qed.

Lemma handleRequestError_run logger err s :
  handleRequestError logger err s
  = (tt, {| st_headers := st_headers s;
            st_trace := st_trace s ++ errorEvents logger err |}).
Proof.
  unfold handleRequestError, errorEvents.
  destruct (asClientError err) as [ce|].
  - unfold mbind, M_bind. rewrite forEach_logError, emit_run.
    cbn [st_headers st_trace]. by rewrite <- app_assoc.
  - unfold mbind, M_bind, logError. rewrite !emit_run.
    cbn [st_headers st_trace]. by rewrite <- app_assoc.
Qed.

(** Opens a dispatcher's monadic code on the initial state. *)
Ltac open_dispatch :=
  unfold run, Traced.ErrorHandler, Plain.ErrorHandler, defer, getHeaders,
    mbind, M_bind, mret, M_ret;
  cbn [st_headers st_trace].

(** Runs the calls that remain and compares the two records of calls. *)
Ltac close_dispatch :=
  rewrite ?emit_run, ?handleRequestError_run;
  unfold logDuration, logInfo;
  rewrite ?emit_run; cbn [st_headers st_trace];
  do 2 f_equal; rewrite <- ?app_assoc; reflexivity.

(** Without a correlation ID, both dispatchers only report the error. *)
Lemma Traced_run_unidentified name a handler r clk h err :
  MsgID h = inr err →
  run (Traced.ErrorHandler name a handler r clk) h
  = (tt, {| st_headers := h;
            st_trace :=
              errorEvents (Traced.a_Logger a)
                (clientError (sderrors.NewClientError err 400 [])) |}).
Proof.
  intros Hid. open_dispatch. rewrite Hid.
  by rewrite handleRequestError_run.
Qed.

Lemma Plain_run_unidentified a handler r clk h err :
  MsgID h = inr err →
  run (Plain.ErrorHandler a handler r clk) h
  = (tt, {| st_headers := h;
            st_trace :=
              errorEvents (Plain.a_Logger a)
                (clientError (sderrors.NewClientError err 400 [])) |}).
Proof.
  intros Hid. open_dispatch. rewrite Hid.
  by rewrite handleRequestError_run.
Qed.

(** With a correlation ID, the dispatcher with tracing makes these calls. *)
Lemma Traced_run_identified name a handler r clk h id :
  MsgID h = inl id →
  let reqLogger := requestLogger (Traced.a_Logger a) id r in
  let h1 := bridgedHeaders h in
  let res :=
    handler (Some (startedSpan a name h1)) r
            (tracedHandlerContext a reqLogger) h1 in
  run (Traced.ErrorHandler name a handler r clk) h
  = (tt, {| st_headers := res_headers res;
            st_trace :=
              bridgeReport reqLogger h
              ++ [Trace (SpanStart (extractedContext a h1) name
                                   (startedSpan a name h1));
                  Trace (SpanSetAttributes "X-Request-ID" id);
                  Invoke h1 reqLogger]
              ++ (HandlerAction <$> res_actions res)
              ++ match res_err res with
                 | None => [Trace (SpanSetStatus codes_Ok "success")]
                 | Some e =>
                     [Trace (SpanSetStatus codes_Error (Error e));
                      Trace (SpanRecordError e)]
                     ++ errorEvents reqLogger e
                 end
              ++ [Trace SpanEnd;
                  LogRecord LevelInfo (attrs reqLogger)
                            (durationMessage (elapsedMs clk))] |}).
Proof.
  intros Hid. cbv zeta. unfold bridgedHeaders, bridgeReport.
  open_dispatch. rewrite Hid.
  destruct (url.ParseQuery (Header.Get h "X-NatsBridge-UrlQuery"))
    as [parsed [e|]] eqn:Hq.
  - rewrite (buildQueryHeaders_err _ _ _ _ Hq), handleRequestError_run.
    rewrite !emit_run. unfold invoke. cbn [st_headers st_trace].
    destruct (res_err _) as [e'|]; close_dispatch.
  - rewrite (buildQueryHeaders_ok _ _ _ Hq).
    rewrite !emit_run. unfold invoke. cbn [st_headers st_trace].
    destruct (res_err _) as [e'|]; close_dispatch.
Qed.

(** With a correlation ID, the dispatcher without tracing makes these. *)
Lemma Plain_run_identified a handler r clk h id :
  MsgID h = inl id →
  let reqLogger := requestLogger (Plain.a_Logger a) id r in
  let h1 := bridgedHeaders h in
  let res :=
    handler r {| Plain.h_Logger := reqLogger; Plain.h_Conn := Plain.a_Conn a |}
            h1 in
  run (Plain.ErrorHandler a handler r clk) h
  = (tt, {| st_headers := res_headers res;
            st_trace :=
              bridgeReport reqLogger h
              ++ [Invoke h1 reqLogger]
              ++ (HandlerAction <$> res_actions res)
              ++ match res_err res with
                 | None => []
                 | Some e => errorEvents reqLogger e
                 end
              ++ [LogRecord LevelInfo (attrs reqLogger)
                            (durationMessage (elapsedMs clk))] |}).
Proof.
  intros Hid. cbv zeta. unfold bridgedHeaders, bridgeReport.
  open_dispatch. rewrite Hid.
  destruct (url.ParseQuery (Header.Get h "X-NatsBridge-UrlQuery"))
    as [parsed [e|]] eqn:Hq.
  - rewrite (buildQueryHeaders_err _ _ _ _ Hq), handleRequestError_run.
    unfold invoke. cbn [st_headers st_trace].
    destruct (res_err _) as [e'|]; close_dispatch.
  - rewrite (buildQueryHeaders_ok _ _ _ Hq).
    unfold invoke. cbn [st_headers st_trace].
    destruct (res_err _) as [e'|]; close_dispatch.
Qed.

(** [MsgID] succeeds exactly on a non-empty first value. *)
Lemma MsgID_inl h id :
  MsgID h = inl id ↔ Header.Get h "X-Request-ID" = id ∧ id ≠ "".
Proof.
  unfold MsgID.
  destruct (String.eqb_spec (Header.Get h "X-Request-ID") "") as [He|Hne].
  - split; [done|]. intros [<- Hne]. done.
  - split; [intros [= <-]; done|]. by intros [-> _].
Qed.

Lemma MsgID_inr h :
  Header.Get h "X-Request-ID" = "" →
  MsgID h = inr (errorString "required request ID not found").
Proof. intros Hid. unfold MsgID. by rewrite Hid. Qed.

End Runs.

(* ===================================================================== *)
(** * Facts about the reports and the parser's errors                     *)
(* ===================================================================== *)
Section Reports.

Implicit Types (logger : Logger) (err : error) (h : Headers).

(** A report is some error logs followed by one error response. *)
Lemma errorEvents_shape logger err :
  ∃ msgs code description data,
    errorEvents logger err
    = (LogRecord LevelError (attrs logger) <$> msgs)
      ++ [RequestError code description data].
Proof.
  unfold errorEvents. destruct (asClientError err) as [ce|].
  - exists (Error <$> m_LoggedError ce). do 3 eexists.
    by rewrite <- list_fmap_compose.
  - exists [Error err]. by do 3 eexists.
Qed.

Lemma errorEvents_plain logger err :
  asClientError err = None →
  errorEvents logger err
  = [LogRecord LevelError (attrs logger) (Error err);
     RequestError "500" "internal server error" internalErrorBody].
Proof. intros Hnone. unfold errorEvents. by rewrite Hnone. Qed.

Lemma errorEvents_responds logger err :
  ∃ code description data,
    RequestError code description data ∈ errorEvents logger err.
Proof.
  destruct (errorEvents_shape logger err) as (msgs & c & d & b & ->).
  exists c, d, b. apply elem_of_app. right. apply list_elem_of_singleton.
  done.
Qed.

(** A report holds no call of the handler and no call on a span. *)
Lemma errorEvents_elem logger err e :
  e ∈ errorEvents logger err → isInvoke e = false ∧ isTrace e = false.
Proof.
  destruct (errorEvents_shape logger err) as (msgs & c & d & b & ->).
  intros [Hin| ->%list_elem_of_singleton]%elem_of_app; [|done].
  apply list_elem_of_fmap in Hin as (msg & -> & _). done.
Qed.

Lemma withoutTracing_app (t1 t2 : list Event) :
  withoutTracing (t1 ++ t2) = withoutTracing t1 ++ withoutTracing t2.
Proof.
  induction t1 as [|e t1 IH]; [done|].
  destruct e; cbn [withoutTracing app]; by rewrite ?IH.
Qed.

Lemma withoutTracing_id (t : list Event) :
  (∀ e, e ∈ t → isTrace e = false) → withoutTracing t = t.
Proof.
  induction t as [|e t IH]; intros Hall; [done|].
  assert (isTrace e = false) as He by (apply Hall; left).
  destruct e; try discriminate He; cbn [withoutTracing];
    (rewrite IH; [done|]); intros e' He'; apply Hall; by right.
Qed.

Lemma withoutTracing_errorEvents logger err :
  withoutTracing (errorEvents logger err) = errorEvents logger err.
Proof.
  apply withoutTracing_id. intros e He.
  by destruct (errorEvents_elem _ _ _ He).
Qed.

Lemma withoutTracing_actions (l : list Action) :
  withoutTracing (HandlerAction <$> l) = HandlerAction <$> l.
Proof.
  apply withoutTracing_id. intros e (a & -> & _)%list_elem_of_fmap. done.
Qed.

(** The errors of [url.QueryUnescape] and [url.ParseQuery] are plain
    values: none of them has the methods of a client error. *)
Lemma checkEscapes_plain (n : nat) (s : string) err :
  (String.length s ≤ n)%nat →
  url.checkEscapes s = Some err → asClientError err = None.
Proof.
  revert s. induction n as [|n IH]; intros s Hlen.
  - destruct s; [done|]. cbn in Hlen. lia.
  - destruct s as [|c rest]; [done|]. cbn [url.checkEscapes].
    destruct (Ascii.eqb c "%").
    + destruct rest as [|h1 [|h2 rest']]; [by intros [= <-]..|].
      destruct (url.ishex h1 && url.ishex h2); [|by intros [= <-]].
      apply IH. cbn in Hlen. lia.
    + apply IH. cbn in Hlen. lia.
Qed.

Lemma QueryUnescape_plain (s : string) err :
  url.QueryUnescape s = inr err → asClientError err = None.
Proof.
  unfold url.QueryUnescape.
  destruct (url.checkEscapes s) as [e|] eqn:Hc; [|done].
  intros [= <-]. by eapply checkEscapes_plain.
Qed.

Lemma parseQuery_step_plain (acc : url.Values * option error) key :
  (∀ err, acc.2 = Some err → asClientError err = None) →
  ∀ err, (url.parseQuery_step acc key).2 = Some err →
         asClientError err = None.
Proof.
  destruct acc as [m old]. cbn [snd]. intros Hold err.
  unfold url.parseQuery_step.
  destruct (strings.Contains key ";"); [by intros [= <-]|].
  destruct (String.eqb key ""); [by apply Hold|].
  destruct (strings.Cut key "=") as [[k v] found].
  destruct (url.QueryUnescape k) as [k'|e1] eqn:Hk.
  - destruct (url.QueryUnescape v) as [v'|e2] eqn:Hv; [by apply Hold|].
    cbn [snd]. destruct old; [by apply Hold|].
    intros [= <-]. by eapply QueryUnescape_plain.
  - cbn [snd]. destruct old; [by apply Hold|].
    intros [= <-]. by eapply QueryUnescape_plain.
Qed.

Lemma ParseQuery_error_plain (query : string) parsed err :
  url.ParseQuery query = (parsed, Some err) → asClientError err = None.
Proof.
  unfold url.ParseQuery. intros Hq.
  assert (Hinv : ∀ keys acc,
    (∀ e, acc.2 = Some e → asClientError e = None) →
    ∀ e, (foldl url.parseQuery_step acc keys).2 = Some e →
         asClientError e = None).
  { induction keys as [|key keys IH]; intros acc Hacc; [exact Hacc|].
    cbn [foldl]. apply IH. by apply parseQuery_step_plain. }
  apply (Hinv (url.segments query) (∅, None)); [done|]. by rewrite Hq.
Qed.

Lemma bridgeReport_failure reqLogger h parsed err :
  url.ParseQuery (Header.Get h "X-NatsBridge-UrlQuery") = (parsed, Some err) →
  bridgedHeaders h = h
  ∧ bridgeReport reqLogger h
    = [LogRecord LevelError (attrs reqLogger) (Error err);
       RequestError "500" "internal server error" internalErrorBody].
Proof.
  intros Hq. unfold bridgedHeaders, bridgeReport. rewrite Hq.
  split; [done|]. apply errorEvents_plain. by eapply ParseQuery_error_plain.
Qed.

(** The bridge never touches the correlation ID. *)
Lemma bridgedHeaders_request_id h :
  Header.Get (bridgedHeaders h) "X-Request-ID" = Header.Get h "X-Request-ID".
Proof.
  unfold bridgedHeaders.
  destruct (url.ParseQuery _) as [parsed [e|]]; [done|].
  unfold Header.Get. rewrite addQueryHeaders_other; [done|].
  intros k. right. cbv [String.append]. discriminate.
Qed.

End Reports.

(* ===================================================================== *)
(** * The correlation ID                                                  *)
(* ===================================================================== *)

(** C1: when the header [X-Request-ID] is absent or empty, both dispatchers
    log the cause on the application's logger, call [r.Error] with code 400
    and return: the handler is not called, no span is started and the
    headers are as they were.  Conversely a call of the handler, or a call
    on a span, occurs only after a non-empty correlation ID was read, and
    the headers the handler receives still hold it. *)
Theorem missing_request_id_rejected (name : string) (a : Traced.AppContext)
    (handler : Traced.AppHandler) (pa : Plain.AppContext)
    (phandler : Plain.AppHandler) (r : Request) (clk : Clock)
    (h : Headers) :
  let traced := run (Traced.ErrorHandler name a handler r clk) h in
  let plain := run (Plain.ErrorHandler pa phandler r clk) h in
  (Header.Get h "X-Request-ID" = "" →
     traced
     = (tt, {| st_headers := h;
               st_trace :=
                 [LogRecord LevelError (attrs (Traced.a_Logger a))
                            "required request ID not found";
                  RequestError "400" "Bad Request"
                    (envelope1 "required request ID not found")] |})
     ∧ plain
       = (tt, {| st_headers := h;
                 st_trace :=
                   [LogRecord LevelError (attrs (Plain.a_Logger pa))
                              "required request ID not found";
                    RequestError "400" "Bad Request"
                      (envelope1 "required request ID not found")] |}))
  ∧ (∀ hs lg,
       Invoke hs lg ∈ st_trace traced.2 ∨ Invoke hs lg ∈ st_trace plain.2 →
       Header.Get h "X-Request-ID" ≠ ""
       ∧ Header.Get hs "X-Request-ID" = Header.Get h "X-Request-ID")
  ∧ (∀ op, Trace op ∈ st_trace traced.2 → Header.Get h "X-Request-ID" ≠ "").
Proof.
  cbv zeta.
  destruct (MsgID h) as [id|err] eqn:Hid.
  - (* identified *)
    apply MsgID_inl in Hid as Hget. destruct Hget as [Hget Hne].
    rewrite (Traced_run_identified _ _ _ _ _ _ _ Hid).
    rewrite (Plain_run_identified _ _ _ _ _ _ Hid).
    cbn [snd st_trace]. rewrite Hget.
    split; [done|]. split; [|done].
    intros hs lg Hin. split; [done|].
    rewrite <- Hget, <- (bridgedHeaders_request_id h). f_equal.
    destruct Hin as [Hin|Hin];
      repeat (apply elem_of_app in Hin as [Hin|Hin]);
      repeat match goal with
        | H : _ ∈ bridgeReport _ _ |- _ =>
            unfold bridgeReport in H; destruct (url.ParseQuery _) as [? [?|]]
        | H : _ ∈ errorEvents _ _ |- _ =>
            by destruct (errorEvents_elem _ _ _ H)
        | H : _ ∈ _ <$> _ |- _ =>
            by apply list_elem_of_fmap in H as (? & ? & _)
        | H : _ ∈ match ?x with _ => _ end |- _ => destruct x
        | H : _ ∈ _ ++ _ |- _ => apply elem_of_app in H as [H|H]
        | H : _ ∈ [] |- _ => by apply elem_of_nil in H
        | H : _ ∈ _ :: _ |- _ => apply elem_of_cons in H as [H|H]
        | H : Invoke _ _ = _ |- _ => by simplify_eq
        end.
  - (* no correlation ID *)
    assert (Hget : Header.Get h "X-Request-ID" = "").
    { unfold MsgID in Hid.
      by destruct (String.eqb_spec (Header.Get h "X-Request-ID") ""). }
    rewrite (MsgID_inr _ Hget) in Hid. injection Hid as <-.
    rewrite (Traced_run_unidentified _ _ _ _ _ _ _ (MsgID_inr _ Hget)).
    rewrite (Plain_run_unidentified _ _ _ _ _ _ (MsgID_inr _ Hget)).
    split; [done|]. cbn [snd st_trace]. split.
    + intros hs lg [Hin|Hin]; by destruct (errorEvents_elem _ _ _ Hin).
    + intros op Hin. by destruct (errorEvents_elem _ _ _ Hin).
Qed.

Lemma missing_request_id_rejected_witness :
  Header.Get (∅ : Headers) "X-Request-ID" = ""
  ∧ run (Traced.ErrorHandler "orders" Examples.app Examples.okHandler
           Examples.request Examples.clock) ∅
    = (tt, {| st_headers := ∅;
              st_trace :=
                [LogRecord LevelError [("service", "orders")]
                           "required request ID not found";
                 RequestError "400" "Bad Request"
                   (envelope1 "required request ID not found")] |}).
Proof.
  split; [reflexivity|].
  apply (missing_request_id_rejected "orders" Examples.app Examples.okHandler
           Examples.plainApp Examples.okPlain Examples.request Examples.clock
           ∅).
  reflexivity.
Defined.

(* ===================================================================== *)
(** * The translation of errors into responses                            *)
(* ===================================================================== *)

(** C3: for an error that does not have the methods of a client error,
    [handleRequestError] logs the error's message and calls [r.Error] with
    code 500, description [internal server error] and the fixed body, which
    is the envelope around the one detail [internal server error]; the
    three arguments do not depend on the error.  When the handler returns
    such an error, both dispatchers end with exactly this report (between
    the span's status and its end, in the one with tracing) and the
    duration log. *)
Theorem internal_error_fallback (err : error)
    (Hplain : asClientError err = None) :
  internalErrorBody = envelope1 "internal server error"
  ∧ (∀ logger s,
       handleRequestError logger err s
       = (tt, {| st_headers := st_headers s;
                 st_trace := st_trace s
                   ++ [LogRecord LevelError (attrs logger) (Error err);
                       RequestError "500" "internal server error"
                                    internalErrorBody] |}))
  ∧ (∀ name a handler r clk h id,
       MsgID h = inl id →
       let reqLogger := requestLogger (Traced.a_Logger a) id r in
       let res := handler (Some (startedSpan a name (bridgedHeaders h))) r
                    (tracedHandlerContext a reqLogger) (bridgedHeaders h) in
       res_err res = Some err →
       ∃ before,
         st_trace (run (Traced.ErrorHandler name a handler r clk) h).2
         = before
           ++ [Trace (SpanSetStatus codes_Error (Error err));
               Trace (SpanRecordError err);
               LogRecord LevelError (attrs reqLogger) (Error err);
               RequestError "500" "internal server error" internalErrorBody;
               Trace SpanEnd;
               LogRecord LevelInfo (attrs reqLogger)
                         (durationMessage (elapsedMs clk))])
  ∧ (∀ a handler r clk h id,
       MsgID h = inl id →
       let reqLogger := requestLogger (Plain.a_Logger a) id r in
       let res := handler r {| Plain.h_Logger := reqLogger;
                               Plain.h_Conn := Plain.a_Conn a |}
                    (bridgedHeaders h) in
       res_err res = Some err →
       ∃ before,
         st_trace (run (Plain.ErrorHandler a handler r clk) h).2
         = before
           ++ [LogRecord LevelError (attrs reqLogger) (Error err);
               RequestError "500" "internal server error" internalErrorBody;
               LogRecord LevelInfo (attrs reqLogger)
                         (durationMessage (elapsedMs clk))]).
Proof.
  split; [reflexivity|]. split; [|split].
  - intros logger s. rewrite handleRequestError_run.
    by rewrite errorEvents_plain.
  - intros name a handler r clk h id Hid. cbv zeta. intros Hres.
    rewrite (Traced_run_identified _ _ _ _ _ _ _ Hid). cbn [snd st_trace].
    rewrite Hres, errorEvents_plain by done.
    exists (bridgeReport (requestLogger (Traced.a_Logger a) id r) h
            ++ [Trace (SpanStart (extractedContext a (bridgedHeaders h)) name
                                 (startedSpan a name (bridgedHeaders h)));
                Trace (SpanSetAttributes "X-Request-ID" id);
                Invoke (bridgedHeaders h)
                       (requestLogger (Traced.a_Logger a) id r)]
            ++ (HandlerAction <$> res_actions
                  (handler (Some (startedSpan a name (bridgedHeaders h))) r
                     (tracedHandlerContext a
                        (requestLogger (Traced.a_Logger a) id r))
                     (bridgedHeaders h)))).
    rewrite <- !app_assoc. reflexivity.
  - intros a handler r clk h id Hid. cbv zeta. intros Hres.
    rewrite (Plain_run_identified _ _ _ _ _ _ Hid). cbn [snd st_trace].
    rewrite Hres, errorEvents_plain by done.
    exists (bridgeReport (requestLogger (Plain.a_Logger a) id r) h
            ++ [Invoke (bridgedHeaders h)
                       (requestLogger (Plain.a_Logger a) id r)]
            ++ (HandlerAction <$> res_actions
                  (handler r
                     {| Plain.h_Logger := requestLogger (Plain.a_Logger a) id r;
                        Plain.h_Conn := Plain.a_Conn a |}
                     (bridgedHeaders h)))).
    rewrite <- !app_assoc. reflexivity.
Qed.

Lemma internal_error_fallback_witness :
  asClientError (errorString "database unreachable") = None
  ∧ handleRequestError Examples.reqLogger
      (errorString "database unreachable")
      {| st_headers := Examples.unbridged; st_trace := [] |}
    = (tt, {| st_headers := Examples.unbridged;
              st_trace :=
                [LogRecord LevelError (attrs Examples.reqLogger)
                           "database unreachable";
                 RequestError "500" "internal server error"
                              internalErrorBody] |}).
Proof.
  split; [reflexivity|].
  apply (internal_error_fallback (errorString "database unreachable")).
  reflexivity.
Defined.

Lemma quoteBody_plainText (msg : string) :
  plainText msg = true → fmt.quoteBody msg = msg.
Proof.
  induction msg as [|c msg IH]; [done|].
  cbn [plainText fmt.quoteBody]. intros Hc.
  apply andb_prop in Hc as [Hc Hrest].
  repeat (apply andb_prop in Hc as [Hc ?]).
  unfold fmt.appendEscapedRune.
  destruct (N_of_ascii c =? 34)%N; [done|].
  destruct (N_of_ascii c =? 92)%N; [done|].
  rewrite Hc. cbn [andb].
  destruct (N_of_ascii c <? 127)%N; [|done].
  cbn [String.append]. by rewrite IH.
Qed.

Lemma Sprintf_q_plainText (msg : string) :
  plainText msg = true → fmt.Sprintf_q msg = quoted msg.
Proof.
  intros Hplain. unfold fmt.Sprintf_q, quoted, sderrors.dquote.
  by rewrite quoteBody_plainText.
Qed.

(** The claim C4 as the spec words it fails on a client error whose
    [Details] hold the bare text [not found]: [Body()] copies the details
    as they are, so the body written is not the envelope around the quoted
    detail. *)
Lemma bare_detail_is_not_quoted :
  run (handleRequestError Examples.reqLogger
         (clientError {| Status := 404; Details := ["not found"];
                         DetailedErrors := [] |})) ∅
  = (tt, {| st_headers := ∅;
            st_trace :=
              [RequestError "404" "Not Found"
                 ("{" +:+ quoted "errors" +:+ ": [not found]}")] |})
  ∧ "{" +:+ quoted "errors" +:+ ": [not found]}" ≠ envelope1 "not found".
Proof. split; [reflexivity|]. vm_compute. discriminate. Qed.

(** C4, amended: [Body()] is the fixed opening, the stored details joined
    by a comma and copied as they are, and the fixed closing; the details
    of a client error built by [MultipleClientErrors] or [NewClientError]
    without options are the causes' messages quoted by [%q], which puts
    printable ASCII text without quote or backslash between double quotes
    unchanged.  For such an error the dispatcher logs every cause and calls
    [r.Error] with the decimal code, its status text and that body; for
    [NewClientError] of a cause with message [not found] and code 404 the
    call is [r.Error] with 404, [Not Found] and the envelope around the
    quoted detail [not found]. *)
Theorem client_error_response (logger : Logger) (errs : list error)
    (code : Z) (s : State) :
  (∀ c : sderrors.ClientError,
     sderrors.Body c
     = "{" +:+ quoted "errors" +:+ ": ["
           +:+ strings.Join (Details c) "," +:+ "]}")
  ∧ Details (sderrors.MultipleClientErrors errs code [])
    = (λ v, fmt.Sprintf_q (Error v)) <$> errs
  ∧ (∀ msg, plainText msg = true → fmt.Sprintf_q msg = quoted msg)
  ∧ handleRequestError logger
      (clientError (sderrors.MultipleClientErrors errs code [])) s
    = (tt, {| st_headers := st_headers s;
              st_trace := st_trace s
                ++ ((λ v, LogRecord LevelError (attrs logger) (Error v))
                      <$> errs)
                ++ [RequestError (fmt.Sprintf_d code) (http.StatusText code)
                      (sderrors.Body
                         (sderrors.MultipleClientErrors errs code []))] |})
  ∧ handleRequestError logger
      (clientError (sderrors.NewClientError (errorString "not found") 404 []))
      s
    = (tt, {| st_headers := st_headers s;
              st_trace := st_trace s
                ++ [LogRecord LevelError (attrs logger) "not found";
                    RequestError "404" "Not Found"
                                 (envelope1 "not found")] |}).
Proof.
  split; [reflexivity|]. split; [reflexivity|].
  split; [exact Sprintf_q_plainText|].
  split; by rewrite handleRequestError_run.
Qed.

(* ===================================================================== *)
(** * A bridge header that does not parse                                 *)
(* ===================================================================== *)

(** The claim C2 as the spec words it fails on a request whose bridge
    header is [%zz]: the parse error is no client error, so the response
    written for it is the internal-error response with code 500. *)
Lemma malformed_query_answered_500 :
  url.ParseQuery (Header.Get Examples.malformed "X-NatsBridge-UrlQuery")
  = (∅, Some (EscapeError "%zz"))
  ∧ run (Traced.ErrorHandler "orders" Examples.app Examples.okHandler
           Examples.request Examples.clock) Examples.malformed
    = (tt, {| st_headers := Examples.malformed;
              st_trace :=
                [LogRecord LevelError (attrs Examples.reqLogger)
                           ("invalid URL escape " +:+ quoted "%zz");
                 RequestError "500" "internal server error"
                              internalErrorBody;
                 Trace (SpanStart None "orders"
                          {| TraceID := "t1"; SpanID := "orders" |});
                 Trace (SpanSetAttributes "X-Request-ID" "abc");
                 Invoke Examples.malformed Examples.reqLogger;
                 HandlerAction (ActRespond "ok");
                 Trace (SpanSetStatus codes_Ok "success");
                 Trace SpanEnd;
                 LogRecord LevelInfo (attrs Examples.reqLogger)
                           "duration 5ms"] |}).
Proof. split; vm_compute; reflexivity. Qed.

(** C2, amended: when the bridge header does not parse, the parse error is
    not a client error, and both dispatchers report it first of all: they
    log its message on the request's logger and call [r.Error] with code
    500, description [internal server error] and the fixed internal-error
    body; the failure is not swallowed. *)
Theorem bridge_failure_reported (h : Headers) (id : string)
    (parsed : url.Values) (err : error)
    (Hid : MsgID h = inl id)
    (Hq : url.ParseQuery (Header.Get h "X-NatsBridge-UrlQuery")
          = (parsed, Some err)) :
  asClientError err = None
  ∧ (∀ name a handler r clk, ∃ rest,
       st_trace (run (Traced.ErrorHandler name a handler r clk) h).2
       = LogRecord LevelError
           (attrs (requestLogger (Traced.a_Logger a) id r)) (Error err)
         :: RequestError "500" "internal server error" internalErrorBody
         :: rest)
  ∧ (∀ a handler r clk, ∃ rest,
       st_trace (run (Plain.ErrorHandler a handler r clk) h).2
       = LogRecord LevelError
           (attrs (requestLogger (Plain.a_Logger a) id r)) (Error err)
         :: RequestError "500" "internal server error" internalErrorBody
         :: rest).
Proof.
  split; [by eapply ParseQuery_error_plain|]. split.
  - intros name a handler r clk.
    rewrite (Traced_run_identified _ _ _ _ _ _ _ Hid). cbn [snd st_trace].
    destruct (bridgeReport_failure
                (requestLogger (Traced.a_Logger a) id r) _ _ _ Hq)
      as [_ ->].
    eexists. reflexivity.
  - intros a handler r clk.
    rewrite (Plain_run_identified _ _ _ _ _ _ Hid). cbn [snd st_trace].
    destruct (bridgeReport_failure
                (requestLogger (Plain.a_Logger a) id r) _ _ _ Hq)
      as [_ ->].
    eexists. reflexivity.
Qed.

Lemma bridge_failure_reported_witness :
  MsgID Examples.malformed = inl "abc"
  ∧ url.ParseQuery (Header.Get Examples.malformed "X-NatsBridge-UrlQuery")
    = (∅, Some (EscapeError "%zz"))
  ∧ asClientError (EscapeError "%zz") = None.
Proof.
  assert (Hid : MsgID Examples.malformed = inl "abc") by reflexivity.
  assert (Hq : url.ParseQuery
                 (Header.Get Examples.malformed "X-NatsBridge-UrlQuery")
               = (∅, Some (EscapeError "%zz"))) by (vm_compute; reflexivity).
  split; [exact Hid|]. split; [exact Hq|].
  exact (proj1 (bridge_failure_reported _ _ _ _ Hid Hq)).
Defined.

(** C5: for a request with a correlation ID whose bridge header does not
    parse, the failure is reported through the error response, and the
    dispatch goes on: the dispatcher with tracing starts the span and both
    dispatchers call the handler, on the headers as the request had them,
    and the handler's actions follow. *)
Theorem bridge_failure_does_not_stop_dispatch (h : Headers) (id : string)
    (parsed : url.Values) (err : error)
    (Hid : MsgID h = inl id)
    (Hq : url.ParseQuery (Header.Get h "X-NatsBridge-UrlQuery")
          = (parsed, Some err)) :
  (∀ name a handler r clk,
     let reqLogger := requestLogger (Traced.a_Logger a) id r in
     let res := handler (Some (startedSpan a name h)) r
                        (tracedHandlerContext a reqLogger) h in
     ∃ rest,
       st_trace (run (Traced.ErrorHandler name a handler r clk) h).2
       = errorEvents reqLogger err
         ++ [Trace (SpanStart (extractedContext a h) name
                              (startedSpan a name h));
             Trace (SpanSetAttributes "X-Request-ID" id);
             Invoke h reqLogger]
         ++ (HandlerAction <$> res_actions res) ++ rest)
  ∧ (∀ a handler r clk,
       let reqLogger := requestLogger (Plain.a_Logger a) id r in
       let res := handler r {| Plain.h_Logger := reqLogger;
                               Plain.h_Conn := Plain.a_Conn a |} h in
       ∃ rest,
         st_trace (run (Plain.ErrorHandler a handler r clk) h).2
         = errorEvents reqLogger err
           ++ [Invoke h reqLogger]
           ++ (HandlerAction <$> res_actions res) ++ rest)
  ∧ (∀ logger, ∃ msgs code description data,
       errorEvents logger err
       = (LogRecord LevelError (attrs logger) <$> msgs)
         ++ [RequestError code description data]).
Proof.
  assert (Hh : bridgedHeaders h = h).
  { unfold bridgedHeaders. by rewrite Hq. }
  assert (Hrep : ∀ l, bridgeReport l h = errorEvents l err).
  { intros l. unfold bridgeReport. by rewrite Hq. }
  split; [|split].
  - intros name a handler r clk. cbv zeta.
    rewrite (Traced_run_identified _ _ _ _ _ _ _ Hid). cbn [snd st_trace].
    rewrite Hh, Hrep. eexists. reflexivity.
  - intros a handler r clk. cbv zeta.
    rewrite (Plain_run_identified _ _ _ _ _ _ Hid). cbn [snd st_trace].
    rewrite Hh, Hrep. eexists. reflexivity.
  - intros logger. apply errorEvents_shape.
Qed.

Lemma bridge_failure_does_not_stop_dispatch_witness :
  MsgID Examples.malformed = inl "abc"
  ∧ url.ParseQuery (Header.Get Examples.malformed "X-NatsBridge-UrlQuery")
    = (∅, Some (EscapeError "%zz"))
  ∧ ∃ rest,
      st_trace (run (Plain.ErrorHandler Examples.plainApp Examples.okPlain
                       Examples.request Examples.clock)
                    Examples.malformed).2
      = errorEvents Examples.reqLogger (EscapeError "%zz")
        ++ [Invoke Examples.malformed Examples.reqLogger]
        ++ (HandlerAction <$> [ActRespond "ok"]) ++ rest.
Proof.
  assert (Hid : MsgID Examples.malformed = inl "abc") by reflexivity.
  assert (Hq : url.ParseQuery
                 (Header.Get Examples.malformed "X-NatsBridge-UrlQuery")
               = (∅, Some (EscapeError "%zz"))) by (vm_compute; reflexivity).
  split; [exact Hid|]. split; [exact Hq|].
  destruct (bridge_failure_does_not_stop_dispatch _ _ _ _ Hid Hq)
    as (_ & Hplain & _).
  exact (Hplain Examples.plainApp Examples.okPlain Examples.request
           Examples.clock).
Defined.

(* ===================================================================== *)
(** * The duration log                                                    *)
(* ===================================================================== *)

(** On a monotonic clock the logged milliseconds are the elapsed
    nanoseconds (saturated at the largest duration) over 1e6, and are not
    negative. *)
Lemma elapsedMs_monotonic (clk : Clock) :
  clock_start clk ≤ clock_end clk →
  - 2 ^ 63 ≤ clock_start clk → clock_end clk < 2 ^ 63 →
  elapsedMs clk
  = Z.min (clock_end clk - clock_start clk) time.maxDuration ÷ 1000000
  ∧ 0 ≤ elapsedMs clk.
Proof.
  destruct clk as [t0 t1]. cbn [clock_start clock_end]. intros Hmono Hlo Hhi.
  unfold elapsedMs, time.Milliseconds, time.Since, time.subMono,
    time.wrap64, time.maxDuration, time.minDuration.
  cbn [clock_start clock_end].
  change (2 ^ 63) with 9223372036854775808 in *.
  change (2 ^ 64) with 18446744073709551616.
  assert (Hd : 0 ≤ t1 - t0 < 18446744073709551616) by lia.
  destruct (Z.lt_ge_cases (t1 - t0) 9223372036854775808) as [Hsmall|Hbig].
  - rewrite (Z.mod_small (t1 - t0 + 9223372036854775808)) by lia.
    replace (t1 - t0 + 9223372036854775808 - 9223372036854775808)
      with (t1 - t0) by lia.
    destruct (Z.ltb_spec (t1 - t0) 0); [lia|]. cbn [andb].
    destruct (Z.ltb_spec t1 t0); [lia|]. rewrite andb_false_r.
    rewrite Z.min_l by lia. split; [done|].
    apply Z.quot_pos; lia.
  - assert (Hmod : (t1 - t0 + 9223372036854775808) mod 18446744073709551616
                   = t1 - t0 - 9223372036854775808).
    { symmetry. apply (Z.mod_unique _ _ 1); lia. }
    rewrite Hmod.
    destruct (Z.ltb_spec (t1 - t0 - 9223372036854775808
                          - 9223372036854775808) 0); [|lia].
    destruct (Z.ltb_spec t0 t1); [|lia]. cbn [andb].
    rewrite Z.min_r by lia. split; [done|]. by vm_compute.
Qed.

Lemma last_app_Some {A} (l1 l2 : list A) (x : A) :
  last l2 = Some x → last (l1 ++ l2) = Some x.
Proof. intros H. by rewrite last_app, H. Qed.

(** The claim C7 as the spec words it fails on a request without a
    correlation ID: the dispatcher returns before the duration log is
    deferred, and its two calls hold no duration log. *)
Lemma no_duration_log_without_id :
  run (Traced.ErrorHandler "orders" Examples.app Examples.okHandler
         Examples.request Examples.clock) ∅
  = (tt, {| st_headers := ∅;
            st_trace :=
              [LogRecord LevelError [("service", "orders")]
                         "required request ID not found";
               RequestError "400" "Bad Request"
                 (envelope1 "required request ID not found")] |})
  ∧ Forall (λ e, ¬ isDurationLog e)
      (st_trace (run (Traced.ErrorHandler "orders" Examples.app
                        Examples.okHandler Examples.request Examples.clock)
                     ∅).2).
Proof.
  split; [reflexivity|].
  repeat constructor; intros (fields & ms & Heq); discriminate Heq.
Qed.

(** C7, amended: for every request with a non-empty correlation ID, on
    every path, the last call of both dispatchers is the log, on the
    request's logger, of [duration Nms], where N is the time elapsed on the
    monotonic clock between the start and the end of the dispatch, in
    milliseconds, and is not negative; when the bridge header does not
    parse and when the handler returns an error, the dispatcher calls
    [r.Error] before that.  For a request without a correlation ID the
    dispatcher calls [r.Error] and logs no duration. *)
Theorem duration_logged_once_identified (h : Headers) (id : string)
    (clk : Clock)
    (Hid : MsgID h = inl id)
    (Hmono : clock_start clk ≤ clock_end clk)
    (Hlo : - 2 ^ 63 ≤ clock_start clk) (Hhi : clock_end clk < 2 ^ 63) :
  0 ≤ elapsedMs clk
  ∧ elapsedMs clk
    = Z.min (clock_end clk - clock_start clk) time.maxDuration ÷ 1000000
  ∧ (∀ name a handler r,
       let reqLogger := requestLogger (Traced.a_Logger a) id r in
       let res := handler (Some (startedSpan a name (bridgedHeaders h))) r
                    (tracedHandlerContext a reqLogger) (bridgedHeaders h) in
       let t :=
         st_trace (run (Traced.ErrorHandler name a handler r clk) h).2 in
       last t = Some (LogRecord LevelInfo (attrs reqLogger)
                                (durationMessage (elapsedMs clk)))
       ∧ (is_Some (url.ParseQuery
                     (Header.Get h "X-NatsBridge-UrlQuery")).2
          ∨ is_Some (res_err res) →
          ∃ code description data, RequestError code description data ∈ t))
  ∧ (∀ a handler r,
       let reqLogger := requestLogger (Plain.a_Logger a) id r in
       let res := handler r {| Plain.h_Logger := reqLogger;
                               Plain.h_Conn := Plain.a_Conn a |}
                    (bridgedHeaders h) in
       let t := st_trace (run (Plain.ErrorHandler a handler r clk) h).2 in
       last t = Some (LogRecord LevelInfo (attrs reqLogger)
                                (durationMessage (elapsedMs clk)))
       ∧ (is_Some (url.ParseQuery
                     (Header.Get h "X-NatsBridge-UrlQuery")).2
          ∨ is_Some (res_err res) →
          ∃ code description data, RequestError code description data ∈ t))
  ∧ (∀ h' name a handler r,
       Header.Get h' "X-Request-ID" = "" →
       let t :=
         st_trace (run (Traced.ErrorHandler name a handler r clk) h').2 in
       (∃ code description data, last t
                                 = Some (RequestError code description data))
       ∧ Forall (λ e, ¬ isDurationLog e) t).
Proof.
  destruct (elapsedMs_monotonic clk Hmono Hlo Hhi) as [Hms Hpos].
  split; [exact Hpos|]. split; [exact Hms|].
  assert (Hbridge : ∀ l,
    is_Some (url.ParseQuery (Header.Get h "X-NatsBridge-UrlQuery")).2 →
    ∃ code description data,
      RequestError code description data ∈ bridgeReport l h).
  { intros l Hsome. unfold bridgeReport.
    destruct (url.ParseQuery _) as [parsed [e|]]; cbn [snd] in Hsome.
    - apply errorEvents_responds.
    - by destruct Hsome. }
  split; [|split].
  - intros name a handler r. cbv zeta.
    rewrite (Traced_run_identified _ _ _ _ _ _ _ Hid). cbn [snd st_trace].
    split; [by repeat apply last_app_Some|].
    intros [Hsome|[e He]].
    + destruct (Hbridge (requestLogger (Traced.a_Logger a) id r) Hsome)
        as (c & d & b & Hin).
      exists c, d, b. apply elem_of_app. by left.
    + rewrite He.
      destruct (errorEvents_responds
                  (requestLogger (Traced.a_Logger a) id r) e)
        as (c & d & b & Hin).
      exists c, d, b. do 3 (apply elem_of_app; right).
      apply elem_of_app. left. apply elem_of_app. by right.
  - intros a handler r. cbv zeta.
    rewrite (Plain_run_identified _ _ _ _ _ _ Hid). cbn [snd st_trace].
    split; [by repeat apply last_app_Some|].
    intros [Hsome|[e He]].
    + destruct (Hbridge (requestLogger (Plain.a_Logger a) id r) Hsome)
        as (c & d & b & Hin).
      exists c, d, b. apply elem_of_app. by left.
    + rewrite He.
      destruct (errorEvents_responds
                  (requestLogger (Plain.a_Logger a) id r) e)
        as (c & d & b & Hin).
      exists c, d, b. do 3 (apply elem_of_app; right).
      apply elem_of_app. by left.
  - intros h' name a handler r Hget. cbv zeta.
    rewrite (Traced_run_unidentified _ _ _ _ _ _ _ (MsgID_inr _ Hget)).
    cbn [snd st_trace]. split.
    + do 3 eexists. reflexivity.
    + repeat constructor; intros (fields & ms & Heq); discriminate Heq.
Qed.

Lemma duration_logged_once_identified_witness :
  MsgID Examples.malformed = inl "abc"
  ∧ clock_start Examples.clock ≤ clock_end Examples.clock
  ∧ - 2 ^ 63 ≤ clock_start Examples.clock
  ∧ clock_end Examples.clock < 2 ^ 63
  ∧ 0 ≤ elapsedMs Examples.clock
  ∧ elapsedMs Examples.clock = 5.
Proof.
  assert (Hid : MsgID Examples.malformed = inl "abc") by reflexivity.
  assert (Hmono : clock_start Examples.clock ≤ clock_end Examples.clock)
    by (cbn; lia).
  assert (Hlo : - 2 ^ 63 ≤ clock_start Examples.clock) by (cbn; lia).
  assert (Hhi : clock_end Examples.clock < 2 ^ 63) by (cbn; lia).
  split; [exact Hid|]. split; [exact Hmono|]. split; [exact Hlo|].
  split; [exact Hhi|]. split; [|reflexivity].
  exact (proj1 (duration_logged_once_identified _ _ _ Hid Hmono Hlo Hhi)).
Defined.

(* ===================================================================== *)
(** * A request without the bridge header                                 *)
(* ===================================================================== *)

(** C10: when the bridge header is absent (its lookup gives the empty
    string), [buildQueryHeaders] returns no error and leaves the header map
    as it was; a dispatcher that has read a correlation ID then makes no
    error call for the bridge: the one with tracing goes straight to the
    span and the handler, the one without to the handler, on the request's
    headers unchanged. *)
Theorem absent_bridge_header_is_noop (headers : Headers)
    (Habsent : Header.Get headers "X-NatsBridge-UrlQuery" = "") :
  (∀ trace,
     buildQueryHeaders {| st_headers := headers; st_trace := trace |}
     = (None, {| st_headers := headers; st_trace := trace |}))
  ∧ (∀ id name a handler r clk,
       MsgID headers = inl id →
       let reqLogger := requestLogger (Traced.a_Logger a) id r in
       ∃ rest,
         st_trace (run (Traced.ErrorHandler name a handler r clk) headers).2
         = Trace (SpanStart (extractedContext a headers) name
                            (startedSpan a name headers))
           :: Trace (SpanSetAttributes "X-Request-ID" id)
           :: Invoke headers reqLogger :: rest)
  ∧ (∀ id a handler r clk,
       MsgID headers = inl id →
       let reqLogger := requestLogger (Plain.a_Logger a) id r in
       ∃ rest,
         st_trace (run (Plain.ErrorHandler a handler r clk) headers).2
         = Invoke headers reqLogger :: rest).
Proof.
  assert (Hq : url.ParseQuery (Header.Get headers "X-NatsBridge-UrlQuery")
               = (∅, None)) by (by rewrite Habsent).
  assert (Hh : bridgedHeaders headers = headers).
  { unfold bridgedHeaders. rewrite Hq. apply addQueryHeaders_empty. }
  assert (Hrep : ∀ l, bridgeReport l headers = []).
  { intros l. unfold bridgeReport. by rewrite Hq. }
  split; [|split].
  - intros trace. rewrite (buildQueryHeaders_ok headers ∅ trace Hq).
    by rewrite addQueryHeaders_empty.
  - intros id name a handler r clk Hid. cbv zeta.
    rewrite (Traced_run_identified _ _ _ _ _ _ _ Hid). cbn [snd st_trace].
    rewrite Hh, Hrep. eexists. reflexivity.
  - intros id a handler r clk Hid. cbv zeta.
    rewrite (Plain_run_identified _ _ _ _ _ _ Hid). cbn [snd st_trace].
    rewrite Hh, Hrep. eexists. reflexivity.
Qed.

Lemma absent_bridge_header_is_noop_witness :
  Header.Get Examples.unbridged "X-NatsBridge-UrlQuery" = ""
  ∧ buildQueryHeaders {| st_headers := Examples.unbridged; st_trace := [] |}
    = (None, {| st_headers := Examples.unbridged; st_trace := [] |}).
Proof.
  split; [reflexivity|].
  apply (absent_bridge_header_is_noop Examples.unbridged). reflexivity.
Defined.

(* ===================================================================== *)
(** * The trace carrier adapter                                           *)
(* ===================================================================== *)

Lemma Keys_elem (m : Headers) (k : string) :
  k ∈ microHeaderCarrier.Keys m ↔ is_Some (m !! k).
Proof.
  unfold microHeaderCarrier.Keys. rewrite list_elem_of_fmap. split.
  - intros ([k' vs] & -> & Hin). apply elem_of_map_to_list in Hin. by exists vs.
  - intros [vs Hvs]. exists (k, vs). split; [done|].
    by apply elem_of_map_to_list.
Qed.

(** C8: on every header map and key, the carrier's [Set] leaves under the
    key the one-element list of the new value, whatever was there, and
    touches no other key; [Get] and the header map's own [Values] read it
    back from the same map; [Keys] lists exactly the keys present, each
    once, and after a [Set] exactly the key set besides those. *)
Theorem carrier_set_overwrites (m : Headers) (key val : string) :
  microHeaderCarrier.Set_ m key val !! key = Some [val]
  ∧ (∀ k, k ≠ key → microHeaderCarrier.Set_ m key val !! k = m !! k)
  ∧ microHeaderCarrier.Get (microHeaderCarrier.Set_ m key val) key = val
  ∧ Header.Values (microHeaderCarrier.Set_ m key val) key = [val]
  ∧ (∀ k, microHeaderCarrier.Get m k = Header.Get m k)
  ∧ (∀ k, k ∈ microHeaderCarrier.Keys m ↔ is_Some (m !! k))
  ∧ NoDup (microHeaderCarrier.Keys m)
  ∧ (∀ k, k ∈ microHeaderCarrier.Keys (microHeaderCarrier.Set_ m key val)
          ↔ k = key ∨ k ∈ microHeaderCarrier.Keys m).
Proof.
  unfold microHeaderCarrier.Set_, microHeaderCarrier.Get, Header.Get,
    Header.Values.
  repeat split.
  - apply lookup_insert_eq.
  - intros k Hk. by apply lookup_insert_ne.
  - by rewrite lookup_insert_eq.
  - by rewrite lookup_insert_eq.
  - apply Keys_elem.
  - apply Keys_elem.
  - apply NoDup_fst_map_to_list.
  - rewrite !Keys_elem. destruct (decide (key = k)) as [->|Hne].
    + by left.
    + rewrite lookup_insert_ne by done. by right.
  - rewrite !Keys_elem. intros [->|Hk].
    + rewrite lookup_insert_eq. by eexists.
    + destruct (decide (key = k)) as [->|Hne].
      * rewrite lookup_insert_eq. by eexists.
      * by rewrite lookup_insert_ne.
Qed.

(* ===================================================================== *)
(** * The two dispatchers                                                 *)
(* ===================================================================== *)

(** C9: when the handler given to the dispatcher with tracing does what
    the handler given to the other does (it ignores the context and the
    tracer and propagator of its handler context), the two dispatchers
    leave the same headers and make the same calls, in the same order, once
    the calls on the tracer and the span are left out: the same
    correlation-ID check and 400 response, the same request logger, the
    same bridge step and report, the same call of the handler, the same
    translation of its error and the same duration log. *)
Theorem dispatchers_agree_up_to_tracing (name : string)
    (a : Traced.AppContext) (handler : Traced.AppHandler)
    (phandler : Plain.AppHandler) (r : Request) (clk : Clock) (h : Headers)
    (Hagree : ∀ ctx hc hs,
       handler ctx r hc hs = phandler r (plainHandlerContext hc) hs) :
  let traced := (run (Traced.ErrorHandler name a handler r clk) h).2 in
  let plain :=
    (run (Plain.ErrorHandler (plainAppContext a) phandler r clk) h).2 in
  st_headers traced = st_headers plain
  ∧ withoutTracing (st_trace traced) = st_trace plain.
Proof.
  cbv zeta. destruct (MsgID h) as [id|err] eqn:Hid.
  - rewrite (Traced_run_identified _ _ _ _ _ _ _ Hid).
    rewrite (Plain_run_identified _ _ _ _ _ _ Hid).
    cbn [snd st_headers st_trace]. rewrite Hagree.
    cbn [plainAppContext plainHandlerContext tracedHandlerContext
         Plain.a_Logger Plain.a_Conn Traced.h_Logger Traced.h_Conn].
    split; [done|].
    rewrite !withoutTracing_app, withoutTracing_actions.
    assert (Hrep : ∀ l, withoutTracing (bridgeReport l h) = bridgeReport l h).
    { intros l. unfold bridgeReport.
      destruct (url.ParseQuery _) as [parsed [e|]]; [|done].
      apply withoutTracing_errorEvents. }
    rewrite Hrep. cbn [withoutTracing]. do 3 f_equal.
    destruct (res_err _) as [e|]; [|done].
    rewrite withoutTracing_app, withoutTracing_errorEvents. done.
  - rewrite (Traced_run_unidentified _ _ _ _ _ _ _ Hid).
    rewrite (Plain_run_unidentified _ _ _ _ _ _ Hid).
    cbn [snd st_headers st_trace]. split; [done|].
    apply withoutTracing_errorEvents.
Qed.

Lemma dispatchers_agree_up_to_tracing_witness :
  (∀ ctx hc hs,
     Examples.okHandler ctx Examples.request hc hs
     = Examples.okPlain Examples.request (plainHandlerContext hc) hs)
  ∧ withoutTracing
      (st_trace (run (Traced.ErrorHandler "orders" Examples.app
                        Examples.okHandler Examples.request Examples.clock)
                     Examples.malformed).2)
    = st_trace (run (Plain.ErrorHandler (plainAppContext Examples.app)
                       Examples.okPlain Examples.request Examples.clock)
                    Examples.malformed).2.
Proof.
  assert (Hagree : ∀ ctx hc hs,
            Examples.okHandler ctx Examples.request hc hs
            = Examples.okPlain Examples.request (plainHandlerContext hc) hs)
    by reflexivity.
  split; [exact Hagree|].
  exact (proj2 (dispatchers_agree_up_to_tracing "orders" Examples.app
                  Examples.okHandler Examples.okPlain Examples.request
                  Examples.clock Examples.malformed Hagree)).
Defined.

(* ===================================================================== *)
(** * Further properties: the helpers around the dispatcher               *)
(* ===================================================================== *)

(** A call of the handler in a dispatcher's record means that a
    correlation ID was read; the handler got the bridged headers and the
    request's logger. *)
Lemma Invoke_in_Traced name a handler r clk h hs lg :
  Invoke hs lg ∈ st_trace (run (Traced.ErrorHandler name a handler r clk) h).2 →
  ∃ id, MsgID h = inl id ∧ hs = bridgedHeaders h
        ∧ lg = requestLogger (Traced.a_Logger a) id r.
Proof.
  destruct (MsgID h) as [id|err] eqn:Hid.
  - rewrite (Traced_run_identified _ _ _ _ _ _ _ Hid). cbn [snd st_trace].
    intros Hin. exists id. split; [done|].
    apply elem_of_app in Hin as [Hin|Hin].
    { unfold bridgeReport in Hin.
      destruct (url.ParseQuery _) as [? [?|]];
        [by destruct (errorEvents_elem _ _ _ Hin)|by apply elem_of_nil in Hin]. }
    apply elem_of_app in Hin as [Hin|Hin].
    { repeat (apply elem_of_cons in Hin as [Hin|Hin]; [by simplify_eq|]).
      by apply elem_of_nil in Hin. }
    apply elem_of_app in Hin as [Hin|Hin].
    { by apply list_elem_of_fmap in Hin as (? & ? & _). }
    apply elem_of_app in Hin as [Hin|Hin].
    { destruct (res_err _).
      - repeat (apply elem_of_cons in Hin as [Hin|Hin]; [by simplify_eq|]).
        by destruct (errorEvents_elem _ _ _ Hin).
      - repeat (apply elem_of_cons in Hin as [Hin|Hin]; [by simplify_eq|]).
        by apply elem_of_nil in Hin. }
    repeat (apply elem_of_cons in Hin as [Hin|Hin]; [by simplify_eq|]).
    by apply elem_of_nil in Hin.
  - rewrite (Traced_run_unidentified _ _ _ _ _ _ _ Hid). cbn [snd st_trace].
    intros Hin. by destruct (errorEvents_elem _ _ _ Hin).
Qed.

(** X1: [RequestLogger] fails exactly when [MsgID] does, with the same
    error; otherwise its logger is the given one with [request_id] bound to
    the header's first value, and the dispatchers' request logger is that
    logger with the [path] added. *)
Theorem RequestLogger_matches_dispatcher (l : Logger) (h : Headers)
    (r : Request) :
  (∀ err, RequestLogger l h = inr err ↔ MsgID h = inr err)
  ∧ (∀ id, MsgID h = inl id →
       Header.Get h "X-Request-ID" = id
       ∧ RequestLogger l h = inl (With l [("request_id", id)])
       ∧ requestLogger l id r
         = With (With l [("request_id", id)]) [("path", Subject r)])
  ∧ (Header.Get h "X-Request-ID" = "" →
       RequestLogger l h
       = inr (errorString "required request ID not found")).
Proof.
  unfold RequestLogger. split; [|split].
  - intros err. destruct (MsgID h); split; congruence.
  - intros id Hid. rewrite Hid. apply MsgID_inl in Hid as [Hget _].
    split; [done|]. split; [done|].
    unfold requestLogger, With. cbn [attrs]. by rewrite <- app_assoc.
  - intros Hget. by rewrite (MsgID_inr _ Hget).
Qed.

Lemma RequestLogger_matches_dispatcher_witness :
  MsgID Examples.unbridged = inl "abc"
  ∧ RequestLogger Examples.logger Examples.unbridged
    = inl (With Examples.logger [("request_id", "abc")]).
Proof.
  assert (Hid : MsgID Examples.unbridged = inl "abc") by reflexivity.
  split; [exact Hid|].
  destruct (RequestLogger_matches_dispatcher Examples.logger
              Examples.unbridged Examples.request) as (_ & Hok & _).
  exact (proj1 (proj2 (Hok "abc" Hid))).
Defined.

(** X2: a message made by [NewMsgWithID] from a non-empty ID passes the
    correlation-ID check with that ID, gets a request logger, and is
    dispatched straight to the handler: no error is reported for it and the
    handler receives its headers as they are. *)
Theorem NewMsgWithID_is_accepted (id : string) (Hid : id ≠ "") :
  let h := msg_Header (NewMsgWithID id) in
  MsgID h = inl id
  ∧ (∀ l, RequestLogger l h = inl (With l [("request_id", id)]))
  ∧ (∀ a handler r clk, ∃ rest,
       st_trace (run (Plain.ErrorHandler a handler r clk) h).2
       = Invoke h (requestLogger (Plain.a_Logger a) id r) :: rest)
  ∧ (∀ name a handler r clk, ∃ rest,
       st_trace (run (Traced.ErrorHandler name a handler r clk) h).2
       = Trace (SpanStart (extractedContext a h) name (startedSpan a name h))
         :: Trace (SpanSetAttributes "X-Request-ID" id)
         :: Invoke h (requestLogger (Traced.a_Logger a) id r) :: rest).
Proof.
  cbv zeta. cbn [NewMsgWithID msg_Header].
  set (h := ({[ "X-Request-ID" := [id] ]} : Headers)).
  assert (Hmsg : MsgID h = inl id).
  { apply MsgID_inl. split; [|done].
    unfold Header.Get, h. by rewrite lookup_singleton_eq. }
  assert (Hq : url.ParseQuery (Header.Get h "X-NatsBridge-UrlQuery")
               = (∅, None)).
  { unfold Header.Get, h. by rewrite lookup_singleton_ne. }
  assert (Hh : bridgedHeaders h = h).
  { unfold bridgedHeaders. rewrite Hq. apply addQueryHeaders_empty. }
  assert (Hrep : ∀ l, bridgeReport l h = []).
  { intros l. unfold bridgeReport. by rewrite Hq. }
  split; [exact Hmsg|]. split; [|split].
  - intros l. unfold RequestLogger. by rewrite Hmsg.
  - intros a handler r clk.
    rewrite (Plain_run_identified _ _ _ _ _ _ Hmsg). cbn [snd st_trace].
    rewrite Hh, Hrep. eexists. reflexivity.
  - intros name a handler r clk.
    rewrite (Traced_run_identified _ _ _ _ _ _ _ Hmsg). cbn [snd st_trace].
    rewrite Hh, Hrep. eexists. reflexivity.
Qed.

Lemma NewMsgWithID_is_accepted_witness :
  "2rGmEqXLwUZ8iZbHCmVCGmDmIqA" ≠ ""
  ∧ MsgID (msg_Header (NewMsgWithID "2rGmEqXLwUZ8iZbHCmVCGmDmIqA"))
    = inl "2rGmEqXLwUZ8iZbHCmVCGmDmIqA".
Proof.
  assert (Hne : "2rGmEqXLwUZ8iZbHCmVCGmDmIqA" ≠ "") by discriminate.
  split; [exact Hne|].
  exact (proj1 (NewMsgWithID_is_accepted _ Hne)).
Defined.

(** X3: the message that a handler builds with [RequestToMsg] from the
    request it was called on carries the request's data and no subject, and
    its headers pass the correlation-ID check with the ID of the incoming
    request: a dispatcher that receives the forwarded message reads the
    same ID. *)
Theorem RequestToMsg_keeps_request_id (name : string)
    (a : Traced.AppContext) (handler : Traced.AppHandler) (r : Request)
    (clk : Clock) (h hs : Headers) (lg : Logger)
    (Hcalled : Invoke hs lg
               ∈ st_trace (run (Traced.ErrorHandler name a handler r clk)
                               h).2) :
  let msg := RequestToMsg hs r in
  msg_Data msg = Data r
  ∧ msg_Subject msg = ""
  ∧ MsgID (msg_Header msg) = MsgID h
  ∧ ∃ id, MsgID (msg_Header msg) = inl id ∧ id ≠ ""
          ∧ ("request_id", id) ∈ attrs lg.
Proof.
  cbv zeta. cbn [RequestToMsg msg_Data msg_Subject msg_Header].
  apply Invoke_in_Traced in Hcalled as (id & Hid & -> & ->).
  assert (Hsame : MsgID (bridgedHeaders h) = MsgID h).
  { unfold MsgID. by rewrite bridgedHeaders_request_id. }
  split; [done|]. split; [done|]. split; [done|].
  exists id. rewrite Hsame. split; [done|].
  apply MsgID_inl in Hid as [_ Hne]. split; [done|].
  unfold requestLogger, With. cbn [attrs].
  apply elem_of_app. right. by left.
Qed.

Lemma RequestToMsg_keeps_request_id_witness :
  Invoke Examples.malformed Examples.reqLogger
  ∈ st_trace (run (Traced.ErrorHandler "orders" Examples.app
                     Examples.okHandler Examples.request Examples.clock)
                  Examples.malformed).2
  ∧ MsgID (msg_Header (RequestToMsg Examples.malformed Examples.request))
    = MsgID Examples.malformed.
Proof.
  assert (Hin : Invoke Examples.malformed Examples.reqLogger
                ∈ st_trace (run (Traced.ErrorHandler "orders" Examples.app
                                   Examples.okHandler Examples.request
                                   Examples.clock) Examples.malformed).2).
  { do 4 right. left. }
  split; [exact Hin|].
  exact (proj1 (proj2 (proj2
    (RequestToMsg_keeps_request_id _ _ _ _ _ _ _ _ Hin)))).
Defined.

(** X4: after [InjectTraceHeaders], a key that the propagator wrote holds
    exactly the one-element list of the last value written for it, whatever
    list the message had there, and every other key is as it was; this
    holds for the function and for the handler context's method. *)
Theorem InjectTraceHeaders_lookup (ctx : Context) (p : TextMapPropagator)
    (headers : Headers) (k : string) :
  InjectTraceHeaders ctx p headers !! k
  = match lastValue k (Inject p ctx) with
    | Some v => Some [v]
    | None => headers !! k
    end
  ∧ (∀ hc, Traced.h_Propagator hc = p →
       HandlerContext_InjectTraceHeaders hc ctx headers
       = InjectTraceHeaders ctx p headers)
  ∧ microHeaderCarrier.Get (InjectTraceHeaders ctx p headers) k
    = match lastValue k (Inject p ctx) with
      | Some v => v
      | None => Header.Get headers k
      end.
Proof.
  assert (Hlookup : InjectTraceHeaders ctx p headers !! k
                    = match lastValue k (Inject p ctx) with
                      | Some v => Some [v]
                      | None => headers !! k
                      end).
  { unfold InjectTraceHeaders, lastValue.
    induction (Inject p ctx) as [|[k' v] pairs IH] using rev_ind; [done|].
    rewrite !foldl_snoc. cbn [fst snd]. unfold microHeaderCarrier.Set_.
    destruct (String.eqb_spec k' k) as [->|Hne].
    - by rewrite lookup_insert_eq.
    - by rewrite lookup_insert_ne. }
  split; [exact Hlookup|]. split.
  - intros hc <-. reflexivity.
  - unfold microHeaderCarrier.Get, Header.Get. rewrite Hlookup.
    by destruct (lastValue k (Inject p ctx)).
Qed.

(** X5: two [Set]s on one key leave the value of the second; [Set]s on
    different keys can be done in either order; a [Set] of the value that
    is already the only one changes nothing. *)
Theorem carrier_Set_composes (m : Headers) (k1 k2 v1 v2 : string) :
  microHeaderCarrier.Set_ (microHeaderCarrier.Set_ m k1 v1) k1 v2
  = microHeaderCarrier.Set_ m k1 v2
  ∧ (k1 ≠ k2 →
     microHeaderCarrier.Set_ (microHeaderCarrier.Set_ m k1 v1) k2 v2
     = microHeaderCarrier.Set_ (microHeaderCarrier.Set_ m k2 v2) k1 v1)
  ∧ (m !! k1 = Some [v1] → microHeaderCarrier.Set_ m k1 v1 = m).
Proof.
  unfold microHeaderCarrier.Set_. split; [|split].
  - apply insert_insert_eq.
  - intros Hne. by apply insert_insert_ne.
  - apply insert_id.
Qed.

(* ===================================================================== *)
(** * Further properties: the header bridge                               *)
(* ===================================================================== *)

Lemma addQueryHeaders_bridge_header (headers : Headers)
    (parsed : url.Values) :
  Header.Get (addQueryHeaders headers parsed) "X-NatsBridge-UrlQuery"
  = Header.Get headers "X-NatsBridge-UrlQuery".
Proof.
  unfold Header.Get. rewrite addQueryHeaders_other; [done|].
  intros k. right. cbv [String.append]. discriminate.
Qed.

Lemma addQueryHeaders_twice (headers : Headers) (parsed : url.Values) :
  addQueryHeaders (addQueryHeaders headers parsed) parsed
  = addQueryHeaders headers parsed.
Proof.
  set (g := addQueryHeaders headers parsed).
  unfold addQueryHeaders at 1.
  apply (map_fold_weak_ind (λ hs m,
    (∀ k vs, m !! k = Some vs → parsed !! k = Some vs) → hs = g)).
  - done.
  - intros i x m r Hi IH Hsub.
    rewrite IH.
    + apply insert_id. unfold g. rewrite addQueryHeaders_prefixed.
      rewrite (Hsub i x); [done|]. apply lookup_insert_eq.
    + intros k vs Hk. apply Hsub.
      rewrite lookup_insert_ne; [done|]. intros ->. congruence.
  - done.
Qed.

(** X6: [buildQueryHeaders] can be run again without effect: a second run
    on the headers the first one left returns the same result and changes
    nothing (the bridge header itself is never written). *)
Theorem buildQueryHeaders_idempotent (s : State) :
  let first := buildQueryHeaders s in
  Header.Get (st_headers first.2) "X-NatsBridge-UrlQuery"
  = Header.Get (st_headers s) "X-NatsBridge-UrlQuery"
  ∧ buildQueryHeaders first.2 = first.
Proof.
  destruct s as [h t]. cbv zeta. cbn [st_headers].
  destruct (url.ParseQuery (Header.Get h "X-NatsBridge-UrlQuery"))
    as [parsed [e|]] eqn:Hq.
  - rewrite (buildQueryHeaders_err _ _ _ _ Hq). cbn [snd st_headers].
    split; [done|]. by apply buildQueryHeaders_err with parsed.
  - rewrite (buildQueryHeaders_ok _ _ _ Hq). cbn [snd st_headers].
    split; [apply addQueryHeaders_bridge_header|].
    rewrite (buildQueryHeaders_ok _ parsed).
    + by rewrite addQueryHeaders_twice.
    + by rewrite addQueryHeaders_bridge_header.
Qed.

#[local] Set Warnings "-clear-no-such-hyp".




(* ===================================================================== *)
(** * Further properties: client errors                                   *)
(* ===================================================================== *)





(* ===================================================================== *)
(** * Further properties: the dispatchers                                 *)
(* ===================================================================== *)

Lemma tracingOnly_app (t1 t2 : list Event) :
  tracingOnly (t1 ++ t2) = tracingOnly t1 ++ tracingOnly t2.
Proof.
  induction t1 as [|e t1 IH]; [done|].
  destruct e; cbn [tracingOnly app]; by rewrite ?IH.
Qed.

Lemma tracingOnly_none (t : list Event) :
  (∀ e, e ∈ t → isTrace e = false) → tracingOnly t = [].
Proof.
  induction t as [|e t IH]; intros Hall; [done|].
  assert (isTrace e = false) as He by (apply Hall; left).
  destruct e; try discriminate He; cbn [tracingOnly];
    apply IH; intros e' He'; apply Hall; by right.
Qed.

Lemma tracingOnly_errorEvents logger err :
  tracingOnly (errorEvents logger err) = [].
Proof.
  apply tracingOnly_none. intros e He.
  by destruct (errorEvents_elem _ _ _ He).
Qed.

Lemma tracingOnly_bridgeReport logger h :
  tracingOnly (bridgeReport logger h) = [].
Proof.
  unfold bridgeReport. destruct (url.ParseQuery _) as [? [?|]]; [|done].
  apply tracingOnly_errorEvents.
Qed.

Lemma tracingOnly_actions (l : list Action) :
  tracingOnly (HandlerAction <$> l) = [].
Proof.
  apply tracingOnly_none. intros e (a & -> & _)%list_elem_of_fmap. done.
Qed.

(** X9: the dispatcher with tracing handles exactly one span per request
    with a correlation ID: it starts it as a child of the context
    extracted from the bridged headers, attaches the ID, sets the status
    once ([Ok], or [Error] with the error's message, then recorded) and
    ends it, in this order and on every path; for a request without a
    correlation ID it makes no call on the tracer, and the dispatcher
    without tracing never makes one. *)
Theorem one_span_per_identified_request (name : string)
    (a : Traced.AppContext) (handler : Traced.AppHandler) (r : Request)
    (clk : Clock) (h : Headers) :
  (∀ id, MsgID h = inl id →
     let h1 := bridgedHeaders h in
     let reqLogger := requestLogger (Traced.a_Logger a) id r in
     let res := handler (Some (startedSpan a name h1)) r
                        (tracedHandlerContext a reqLogger) h1 in
     tracingOnly
       (st_trace (run (Traced.ErrorHandler name a handler r clk) h).2)
     = [SpanStart (extractedContext a h1) name (startedSpan a name h1);
        SpanSetAttributes "X-Request-ID" id]
       ++ match res_err res with
          | None => [SpanSetStatus codes_Ok "success"]
          | Some e => [SpanSetStatus codes_Error (Error e);
                       SpanRecordError e]
          end
       ++ [SpanEnd])
  ∧ (Header.Get h "X-Request-ID" = "" →
       tracingOnly
         (st_trace (run (Traced.ErrorHandler name a handler r clk) h).2)
       = [])
  ∧ (∀ pa phandler,
       tracingOnly
         (st_trace (run (Plain.ErrorHandler pa phandler r clk) h).2) = []).
Proof.
  split; [|split].
  - intros id Hid. cbv zeta.
    rewrite (Traced_run_identified _ _ _ _ _ _ _ Hid). cbn [snd st_trace].
    rewrite !tracingOnly_app, tracingOnly_bridgeReport, tracingOnly_actions.
    destruct (res_err _) as [e|]; cbn [tracingOnly app];
      by rewrite ?tracingOnly_app, ?tracingOnly_errorEvents.
  - intros Hget.
    rewrite (Traced_run_unidentified _ _ _ _ _ _ _ (MsgID_inr _ Hget)).
    apply tracingOnly_errorEvents.
  - intros pa phandler. destruct (MsgID h) as [id|err] eqn:Hid.
    + rewrite (Plain_run_identified _ _ _ _ _ _ Hid). cbn [snd st_trace].
      rewrite !tracingOnly_app, tracingOnly_bridgeReport,
        tracingOnly_actions.
      destruct (res_err _) as [e|]; cbn [tracingOnly app];
        by rewrite ?tracingOnly_app, ?tracingOnly_errorEvents.
    + rewrite (Plain_run_unidentified _ _ _ _ _ _ Hid).
      apply tracingOnly_errorEvents.
Qed.

Lemma errorResponses_app (t1 t2 : list Event) :
  errorResponses (t1 ++ t2) = errorResponses t1 ++ errorResponses t2.
Proof.
  induction t1 as [|e t1 IH]; [done|].
  destruct e; cbn [errorResponses app]; by rewrite ?IH.
Qed.

Lemma errorResponses_errorEvents logger err :
  length (errorResponses (errorEvents logger err)) = 1%nat.
Proof.
  destruct (errorEvents_shape logger err) as (msgs & c & d & b & ->).
  rewrite errorResponses_app. cbn [errorResponses].
  rewrite length_app. cbn [length].
  assert (Hlogs : errorResponses (LogRecord LevelError (attrs logger) <$> msgs)
                  = []) by (induction msgs; done).
  by rewrite Hlogs.
Qed.

Lemma errorResponses_actions (l : list Action) :
  errorResponses (HandlerAction <$> l) = [].
Proof. induction l; done. Qed.

(** X10: the number of error responses a dispatcher itself sends, for
    both dispatchers: one for a request without a correlation ID;
    otherwise one for a bridge header that does not parse plus one for an
    error returned by the handler, so none when both succeed (the answer is
    then the handler's own) and two when both fail. *)
Theorem error_responses_counted (r : Request) (clk : Clock) (h : Headers) :
  (∀ a handler,
     let t := st_trace (run (Plain.ErrorHandler a handler r clk) h).2 in
     (Header.Get h "X-Request-ID" = "" → length (errorResponses t) = 1%nat)
     ∧ (∀ id, MsgID h = inl id →
          let reqLogger := requestLogger (Plain.a_Logger a) id r in
          let res := handler r {| Plain.h_Logger := reqLogger;
                                  Plain.h_Conn := Plain.a_Conn a |}
                             (bridgedHeaders h) in
          length (errorResponses t)
          = ((if (url.ParseQuery (Header.Get h "X-NatsBridge-UrlQuery")).2
                 is Some _ then 1 else 0)
             + (if res_err res is Some _ then 1 else 0))%nat))
  ∧ (∀ name a handler,
       let t :=
         st_trace (run (Traced.ErrorHandler name a handler r clk) h).2 in
       (Header.Get h "X-Request-ID" = "" → length (errorResponses t) = 1%nat)
       ∧ (∀ id, MsgID h = inl id →
            let reqLogger := requestLogger (Traced.a_Logger a) id r in
            let res :=
              handler (Some (startedSpan a name (bridgedHeaders h))) r
                      (tracedHandlerContext a reqLogger) (bridgedHeaders h) in
            length (errorResponses t)
            = ((if (url.ParseQuery (Header.Get h "X-NatsBridge-UrlQuery")).2
                   is Some _ then 1 else 0)
               + (if res_err res is Some _ then 1 else 0))%nat)).
Proof.
  split.
  - intros a handler. cbv zeta. split.
    + intros Hget.
      rewrite (Plain_run_unidentified _ _ _ _ _ _ (MsgID_inr _ Hget)).
      apply errorResponses_errorEvents.
    + intros id Hid.
      rewrite (Plain_run_identified _ _ _ _ _ _ Hid). cbn [snd st_trace].
      rewrite !errorResponses_app, errorResponses_actions, !length_app.
      cbn [errorResponses length]. unfold bridgeReport.
      destruct (url.ParseQuery _) as [parsed [e|]]; cbn [snd];
        destruct (res_err _) as [e'|];
        rewrite ?errorResponses_errorEvents; cbn [errorResponses length]; lia.
  - intros name a handler. cbv zeta. split.
    + intros Hget.
      rewrite (Traced_run_unidentified _ _ _ _ _ _ _ (MsgID_inr _ Hget)).
      apply errorResponses_errorEvents.
    + intros id Hid.
      rewrite (Traced_run_identified _ _ _ _ _ _ _ Hid). cbn [snd st_trace].
      rewrite !errorResponses_app, errorResponses_actions, !length_app.
      cbn [errorResponses length]. unfold bridgeReport.
      destruct (url.ParseQuery _) as [parsed [e|]]; cbn [snd];
        destruct (res_err _) as [e'|];
        cbn [errorResponses app length];
        rewrite ?errorResponses_errorEvents; cbn [errorResponses length]; lia.
Qed.

Lemma LogRecord_in_errorEvents logger err level fields msg :
  LogRecord level fields msg ∈ errorEvents logger err →
  level = LevelError ∧ fields = attrs logger.
Proof.
  destruct (errorEvents_shape logger err) as (msgs & c & d & b & ->).
  intros [Hin|Hin%list_elem_of_singleton]%elem_of_app; [|done].
  apply list_elem_of_fmap in Hin as (m & [= -> -> ->] & _). done.
Qed.

Lemma LogRecord_in_Plain a handler r clk h level fields msg :
  LogRecord level fields msg
  ∈ st_trace (run (Plain.ErrorHandler a handler r clk) h).2 →
  fields = attrs (Plain.a_Logger a)
           ++ match MsgID h with
              | inl id => [("request_id", id); ("path", Subject r)]
              | inr _ => []
              end.
Proof.
  destruct (MsgID h) as [id|err] eqn:Hid.
  - rewrite (Plain_run_identified _ _ _ _ _ _ Hid). cbn [snd st_trace].
    intros Hin.
    apply elem_of_app in Hin as [Hin|Hin].
    { unfold bridgeReport in Hin.
      destruct (url.ParseQuery _) as [? [?|]];
        [by destruct (LogRecord_in_errorEvents _ _ _ _ _ Hin)
        |by apply elem_of_nil in Hin]. }
    apply elem_of_app in Hin as [Hin|Hin].
    { apply list_elem_of_singleton in Hin. discriminate Hin. }
    apply elem_of_app in Hin as [Hin|Hin].
    { by apply list_elem_of_fmap in Hin as (? & ? & _). }
    apply elem_of_app in Hin as [Hin|Hin].
    { destruct (res_err _);
        [by destruct (LogRecord_in_errorEvents _ _ _ _ _ Hin)
        |by apply elem_of_nil in Hin]. }
    apply list_elem_of_singleton in Hin. by injection Hin as -> -> ->.
  - rewrite (Plain_run_unidentified _ _ _ _ _ _ Hid). cbn [snd st_trace].
    intros Hin. rewrite app_nil_r.
    by destruct (LogRecord_in_errorEvents _ _ _ _ _ Hin).
Qed.

Lemma LogRecord_in_Traced name a handler r clk h level fields msg :
  LogRecord level fields msg
  ∈ st_trace (run (Traced.ErrorHandler name a handler r clk) h).2 →
  fields = attrs (Traced.a_Logger a)
           ++ match MsgID h with
              | inl id => [("request_id", id); ("path", Subject r)]
              | inr _ => []
              end.
Proof.
  destruct (MsgID h) as [id|err] eqn:Hid.
  - rewrite (Traced_run_identified _ _ _ _ _ _ _ Hid). cbn [snd st_trace].
    intros Hin.
    apply elem_of_app in Hin as [Hin|Hin].
    { unfold bridgeReport in Hin.
      destruct (url.ParseQuery _) as [? [?|]];
        [by destruct (LogRecord_in_errorEvents _ _ _ _ _ Hin)
        |by apply elem_of_nil in Hin]. }
    apply elem_of_app in Hin as [Hin|Hin].
    { repeat (apply elem_of_cons in Hin as [Hin|Hin]; [discriminate Hin|]).
      by apply elem_of_nil in Hin. }
    apply elem_of_app in Hin as [Hin|Hin].
    { by apply list_elem_of_fmap in Hin as (? & ? & _). }
    apply elem_of_app in Hin as [Hin|Hin].
    { destruct (res_err _).
      - repeat (apply elem_of_cons in Hin as [Hin|Hin]; [discriminate Hin|]).
        by destruct (LogRecord_in_errorEvents _ _ _ _ _ Hin).
      - repeat (apply elem_of_cons in Hin as [Hin|Hin]; [discriminate Hin|]).
        by apply elem_of_nil in Hin. }
    apply elem_of_cons in Hin as [Hin|Hin]; [discriminate Hin|].
    apply list_elem_of_singleton in Hin. by injection Hin as -> -> ->.
  - rewrite (Traced_run_unidentified _ _ _ _ _ _ _ Hid). cbn [snd st_trace].
    intros Hin. rewrite app_nil_r.
    by destruct (LogRecord_in_errorEvents _ _ _ _ _ Hin).
Qed.

(** X11: every log record that a dispatcher (either one) writes for a
    request with a correlation ID carries the fields of the application's
    logger followed by [request_id], bound to the value of the header, and
    [path], bound to the request's subject; the record for a request
    without a correlation ID carries the application's fields alone. *)
Theorem log_records_carry_request_id (r : Request) (clk : Clock)
    (h : Headers) (level : Level) (fields : list (string * string))
    (msg : string) :
  let identity :=
    if String.eqb (Header.Get h "X-Request-ID") "" then []
    else [("request_id", Header.Get h "X-Request-ID");
          ("path", Subject r)] in
  (∀ a handler,
     LogRecord level fields msg
     ∈ st_trace (run (Plain.ErrorHandler a handler r clk) h).2 →
     fields = attrs (Plain.a_Logger a) ++ identity)
  ∧ (∀ name a handler,
       LogRecord level fields msg
       ∈ st_trace (run (Traced.ErrorHandler name a handler r clk) h).2 →
       fields = attrs (Traced.a_Logger a) ++ identity).
Proof.
  cbv zeta.
  assert (Hident : match MsgID h with
                   | inl id => [("request_id", id); ("path", Subject r)]
                   | inr _ => []
                   end
                   = if String.eqb (Header.Get h "X-Request-ID") "" then []
                     else [("request_id", Header.Get h "X-Request-ID");
                           ("path", Subject r)]).
  { unfold MsgID. by destruct (String.eqb _ _). }
  rewrite <- Hident. split.
  - intros a handler. apply LogRecord_in_Plain.
  - intros name a handler. apply LogRecord_in_Traced.
Qed.

Lemma log_records_carry_request_id_witness :
  LogRecord LevelInfo (attrs Examples.reqLogger) "duration 5ms"
  ∈ st_trace (run (Plain.ErrorHandler Examples.plainApp Examples.okPlain
                     Examples.request Examples.clock) Examples.unbridged).2
  ∧ attrs Examples.reqLogger
    = attrs Examples.logger ++ [("request_id", "abc"); ("path", "orders.get")].
Proof.
  assert (Hin : LogRecord LevelInfo (attrs Examples.reqLogger) "duration 5ms"
                ∈ st_trace (run (Plain.ErrorHandler Examples.plainApp
                                   Examples.okPlain Examples.request
                                   Examples.clock) Examples.unbridged).2).
  { do 2 right. left. }
  split; [exact Hin|].
  exact (proj1 (log_records_carry_request_id Examples.request Examples.clock
                  Examples.unbridged LevelInfo (attrs Examples.reqLogger)
                  "duration 5ms")
               Examples.plainApp Examples.okPlain Hin).
Defined.

(** X15: when the bridge header parses, the handler of either dispatcher
    is called on headers from which [GetQueryHeaders] reads, for every
    parameter the query string gives a value to, exactly its values in the
    order written; for a name the query string does not mention it reads
    whatever [X-Sencillo-] header the request itself carried. *)
Theorem handler_reads_bridged_parameters (r : Request) (clk : Clock)
    (h hs : Headers) (lg : Logger) (parsed : url.Values)
    (Hq : url.ParseQuery (Header.Get h "X-NatsBridge-UrlQuery")
          = (parsed, None)) :
  let query := Header.Get h "X-NatsBridge-UrlQuery" in
  (∀ name a handler,
     Invoke hs lg
     ∈ st_trace (run (Traced.ErrorHandler name a handler r clk) h).2 →
     ∀ k, GetQueryHeaders hs k
          = match valuesOf k (queryPairs query) with
            | [] => GetQueryHeaders h k
            | vs => vs
            end)
  ∧ (∀ a handler,
       Invoke hs lg
       ∈ st_trace (run (Plain.ErrorHandler a handler r clk) h).2 →
       ∀ k, GetQueryHeaders hs k
            = match valuesOf k (queryPairs query) with
              | [] => GetQueryHeaders h k
              | vs => vs
              end).
Proof.
  cbv zeta.
  assert (Hread : ∀ k, GetQueryHeaders (bridgedHeaders h) k
            = match valuesOf k (queryPairs
                      (Header.Get h "X-NatsBridge-UrlQuery")) with
              | [] => GetQueryHeaders h k
              | vs => vs
              end).
  { intros k. unfold bridgedHeaders, GetQueryHeaders, Header.Values.
    rewrite Hq, addQueryHeaders_prefixed.
    pose proof (ParseQuery_lookup
                  (Header.Get h "X-NatsBridge-UrlQuery") k) as Hk.
    rewrite Hq in Hk. cbn [fst] in Hk. rewrite Hk.
    by destruct (valuesOf k _). }
  split.
  - intros name a handler Hin.
    apply Invoke_in_Traced in Hin as (id & _ & -> & _). exact Hread.
  - intros a handler Hin.
    destruct (MsgID h) as [id|err] eqn:Hid.
    + rewrite (Plain_run_identified _ _ _ _ _ _ Hid) in Hin.
      cbn [snd st_trace] in Hin.
      apply elem_of_app in Hin as [Hin|Hin].
      { unfold bridgeReport in Hin. rewrite Hq in Hin.
        by apply elem_of_nil in Hin. }
      apply elem_of_app in Hin as [Hin|Hin].
      { apply list_elem_of_singleton in Hin. injection Hin as -> _.
        exact Hread. }
      apply elem_of_app in Hin as [Hin|Hin].
      { by apply list_elem_of_fmap in Hin as (? & ? & _). }
      apply elem_of_app in Hin as [Hin|Hin].
      { destruct (res_err _);
          [by destruct (errorEvents_elem _ _ _ Hin)
          |by apply elem_of_nil in Hin]. }
      apply list_elem_of_singleton in Hin. discriminate Hin.
    + rewrite (Plain_run_unidentified _ _ _ _ _ _ Hid) in Hin.
      by destruct (errorEvents_elem _ _ _ Hin).
Qed.

Lemma handler_reads_bridged_parameters_witness :
  url.ParseQuery (Header.Get Examples.bridged "X-NatsBridge-UrlQuery")
  = ({[ "a" := ["1"; "2"]; "b" := ["3"] ]}, None)
  ∧ ∀ hs lg,
      Invoke hs lg
      ∈ st_trace (run (Plain.ErrorHandler Examples.plainApp Examples.okPlain
                         Examples.request Examples.clock)
                      Examples.bridged).2 →
      GetQueryHeaders hs "a" = ["1"; "2"].
Proof.
  assert (Hq : url.ParseQuery
                 (Header.Get Examples.bridged "X-NatsBridge-UrlQuery")
               = ({[ "a" := ["1"; "2"]; "b" := ["3"] ]}, None))
    by (vm_compute; reflexivity).
  split; [exact Hq|].
  intros hs lg Hin.
  exact (proj2 (handler_reads_bridged_parameters Examples.request
                  Examples.clock Examples.bridged hs lg _ Hq)
               Examples.plainApp Examples.okPlain Hin "a").
Defined.

(* ===================================================================== *)
(** * Further properties: the HTTP middleware                             *)
(* ===================================================================== *)

Example CanonicalMIMEHeaderKey_examples :
  httpHeader.CanonicalMIMEHeaderKey "X-Request-ID" = "X-Request-Id"
  ∧ httpHeader.CanonicalMIMEHeaderKey "x-request-id" = "X-Request-Id"
  ∧ httpHeader.CanonicalMIMEHeaderKey "content-type" = "Content-Type"
  ∧ httpHeader.CanonicalMIMEHeaderKey "a b" = "a b".
Proof. repeat split; reflexivity. Qed.

(** X12: [RequestID] leaves a request that has a non-empty ID as it is and
    adds nothing to the response; to a request with no value under the
    header it gives the fresh ID, which the wrapped handler then reads, and
    appends the same ID to the response's header.  When the header is
    present with an empty first value the fresh ID is appended behind it,
    so the wrapped handler still reads an empty ID.  The ID is kept under
    the canonical key [X-Request-Id]: the case-sensitive lookup of the NATS
    side does not find it in a map that only this middleware filled. *)
Theorem RequestID_supplies_id {A} (h : middleware.Handler A) (id : string)
    (w r : Headers) :
  let key := "X-Request-Id" in
  let w' := <[key := default [] (w !! key) ++ [id]]> w in
  (httpHeader.Get r "X-Request-ID" ≠ "" → middleware.RequestID h id w r = h w r)
  ∧ (r !! key = None ∨ r !! key = Some [] →
       middleware.RequestID h id w r = h w' (<[key := [id]]> r)
       ∧ httpHeader.Get (<[key := [id]]> r) "X-Request-ID" = id)
  ∧ (∀ vs, r !! key = Some ("" :: vs) →
       middleware.RequestID h id w r = h w' (<[key := "" :: vs ++ [id]]> r)
       ∧ httpHeader.Get (<[key := "" :: vs ++ [id]]> r) "X-Request-ID" = "")
  ∧ MsgID (httpHeader.Add ∅ "X-Request-ID" id)
    = inr (errorString "required request ID not found").
Proof.
  cbv zeta. unfold middleware.RequestID, httpHeader.Get, httpHeader.Add.
  change (httpHeader.CanonicalMIMEHeaderKey "X-Request-ID")
    with "X-Request-Id".
  split; [|split; [|split]].
  - intros Hne. destruct (String.eqb_spec
      match r !! "X-Request-Id" with Some (v :: _) => v | _ => "" end "");
      [done|done].
  - intros [Hr|Hr]; rewrite Hr; cbn [default app String.eqb];
      by rewrite lookup_insert_eq.
  - intros vs Hr. rewrite Hr. cbn [default app String.eqb].
    by rewrite lookup_insert_eq.
  - apply MsgID_inr. unfold Header.Get. by rewrite lookup_insert_ne.
Qed.

Lemma forwarded_snoc (flusher : bool) (calls : list middleware.WriterCall)
    (c : middleware.WriterCall) :
  forwarded flusher (calls ++ [c])
  = forwarded flusher calls
    ++ match c with
       | middleware.CallFlush => if flusher then [c] else []
       | _ => [c]
       end.
Proof.
  unfold forwarded. rewrite List.filter_app. f_equal.
  destruct c; cbn [List.filter]; by destruct flusher.
Qed.

Lemma lastWriteHeader_snoc (calls : list middleware.WriterCall)
    (c : middleware.WriterCall) :
  lastWriteHeader (calls ++ [c])
  = match c with
    | middleware.CallWriteHeader s => Some s
    | _ => lastWriteHeader calls
    end.
Proof. unfold lastWriteHeader. rewrite foldl_snoc. by destruct c. Qed.

(** X13: under [CodeStats] the wrapped writer receives every call of the
    handler, in order (a [Flush] only if it supports it), and the status
    label of the counter and of the histogram is 200 when the handler
    never calls [WriteHeader] and otherwise the status of its last
    [WriteHeader] call; the counter is incremented once, with the request's
    method and path. *)
Theorem CodeStats_labels_last_status (calls : list middleware.WriterCall)
    (w : list middleware.WriterCall) (flusher : bool)
    (method path : string) (clk : Clock) :
  let out := middleware.CodeStats calls w flusher method path clk in
  let status := middleware.RecStatus out.1 in
  middleware.ResponseWriter out.1 = w ++ forwarded flusher calls
  ∧ (lastWriteHeader calls = None → status = 200)
  ∧ (∀ s, lastWriteHeader calls = Some s → s ≠ 0 → status = s)
  ∧ out.2
    = [middleware.CounterInc (fmt.Sprintf_d status) method path;
       middleware.HistogramObserve (fmt.Sprintf_d status) method path
         (time.Since (clock_end clk) (clock_start clk))].
Proof.
  cbv zeta. unfold middleware.CodeStats. cbn [fst snd].
  set (rec0 := {| middleware.ResponseWriter := w;
                  middleware.isFlusher := flusher;
                  middleware.RecStatus := 200 |}).
  assert (Hinv :
    middleware.ResponseWriter (foldl middleware.perform rec0 calls)
    = w ++ forwarded flusher calls
    ∧ middleware.isFlusher (foldl middleware.perform rec0 calls) = flusher
    ∧ (lastWriteHeader calls = None →
       middleware.RecStatus (foldl middleware.perform rec0 calls) = 200)
    ∧ (∀ s, lastWriteHeader calls = Some s → s ≠ 0 →
       middleware.RecStatus (foldl middleware.perform rec0 calls) = s)).
  { induction calls as [|c calls IH] using rev_ind.
    - cbn. rewrite app_nil_r. done.
    - destruct IH as (Hw & Hf & Hnone & Hsome).
      rewrite foldl_snoc, forwarded_snoc, lastWriteHeader_snoc.
      destruct c as [s|b|]; cbn [middleware.perform].
      + unfold middleware.WriteHeader.
        cbn [middleware.ResponseWriter middleware.isFlusher
             middleware.RecStatus].
        rewrite Hw, <- app_assoc. split; [done|]. split; [done|].
        split; [done|]. by intros s' [= ->].
      + unfold middleware.Write.
        cbn [middleware.ResponseWriter middleware.isFlusher
             middleware.RecStatus].
        rewrite Hw, <- app_assoc. split; [done|]. split; [done|]. split.
        * intros Hn. by rewrite (Hnone Hn).
        * intros s Hs Hne. rewrite (Hsome s Hs Hne).
          destruct (Z.eqb_spec s 0); [done|done].
      + unfold middleware.Flush. rewrite Hf. destruct flusher.
        * cbn [middleware.ResponseWriter middleware.isFlusher
               middleware.RecStatus].
          rewrite Hw, <- app_assoc. done.
        * rewrite app_nil_r. done. }
  destruct Hinv as (Hw & _ & Hnone & Hsome). done.
Qed.

(* ===================================================================== *)
(** * Further properties: the generated service's configuration watch    *)
(* ===================================================================== *)


